(** * Incremental ld2l / OpenDota synchronisation: model and properties

    A shallow embedding of [dota_data.py]: the rate-limited puller, the two
    page scrapers, the statistics extractor [desired_fields] and the
    orchestrator [update_data_for_season], followed by the properties of the
    specification that were checked against it. *)

From Stdlib Require Import ZArith Lia Ascii String DecimalString DecimalZ DecimalPos DecimalN DecimalFacts.
From stdpp Require Import base option list strings gmap sets.

Local Open Scope string_scope.
Local Open Scope list_scope.
Local Open Scope Z_scope.
Set Warnings "-register-all".
Set Default Proof Using "Type".

(** ** Python values, exceptions *)

(** The exceptions the program can raise.  Nothing in [dota_data.py] catches
    any of them except [FileNotFoundError] on the two reads, which the file
    operations below resolve on the spot. *)
Inductive exn : Type :=
  | ConnectionError   (* requests.get raised *)
  | JSONDecodeError   (* response.json() on a body that is not JSON *)
  | ValueError        (* int() on text that is not an integer literal *)
  | KeyError          (* d[k] with k absent *)
  | IndexError        (* l[i] with i out of range *)
  | TypeError         (* subscripting or adding a value of the wrong kind *)
  | AttributeError    (* attribute of None, as in soup.tbody.children *)
  | AssertionError.   (* the assert statement of line 139 *)

Inductive result (A : Type) : Type :=
  | Ok (a : A)
  | Raise (e : exn).
Arguments Ok {A} a.
Arguments Raise {A} e.

#[global] Instance result_ret : MRet result := @Ok.
#[global] Instance result_bind : MBind result := λ A B f r,
  match r with Ok a => f a | Raise e => Raise e end.
#[global] Instance result_fmap : FMap result := λ A B f r,
  match r with Ok a => Ok (f a) | Raise e => Raise e end.

(** [for x in l: acc = f(acc, x)] where the body may raise. *)
Fixpoint foldE {S A : Type} (f : S → A → result S) (l : list A) (s : S) : result S :=
  match l with
  | [] => Ok s
  | x :: l' => s' ← f s x; foldE f l' s'
  end.

(** [[f(x) for x in l]] where [f] may raise. *)
Fixpoint mapE {A B : Type} (f : A → result B) (l : list A) : result (list B) :=
  match l with
  | [] => Ok []
  | x :: l' => y ← f x; ys ← mapE f l'; Ok (y :: ys)
  end.

(** Decoded JSON as Python sees it.  Numbers are integers: OpenDota's
    [kills], [deaths], [assists], [gold_per_min], [xp_per_min], the team and
    match identifiers and [player_slot] are all integral; floating-point
    values are outside the model.  A [PDict] holds the bindings of the decoded
    dict, looked up by key. *)
Inductive pyval : Type :=
  | PNone
  | PBool (b : bool)
  | PInt (z : Z)
  | PStr (s : string)
  | PList (l : list pyval)
  | PDict (d : list (string * pyval)).

Fixpoint assoc {V : Type} (k : string) (d : list (string * V)) : option V :=
  match d with
  | [] => None
  | (k', v) :: d' => if String.eqb k k' then Some v else assoc k d'
  end.

(** [v[key]] for a string key. *)
Definition py_getitem (v : pyval) (key : string) : result pyval :=
  match v with
  | PDict d => match assoc key d with Some x => Ok x | None => Raise KeyError end
  | _ => Raise TypeError
  end.

Fixpoint chars (s : string) : list string :=
  match s with
  | EmptyString => []
  | String c s' => String c EmptyString :: chars s'
  end.

(** [for p in v]: the items a for loop visits. *)
Definition py_iter (v : pyval) : result (list pyval) :=
  match v with
  | PList l => Ok l
  | PDict d => Ok (PStr ∘ fst <$> d)
  | PStr s => Ok (PStr <$> chars s)
  | _ => Raise TypeError
  end.

(** A value used as an integer operand ([bool] is a subclass of [int]). *)
Definition as_int (v : pyval) : result Z :=
  match v with
  | PInt z => Ok z
  | PBool b => Ok (Z.b2z b)
  | _ => Raise TypeError
  end.

(** [l[i]] on a list of length [n]: Python accepts [-n <= i < n]. *)
Definition py_index (n : nat) (i : Z) : result nat :=
  if (0 <=? i) && (i <? Z.of_nat n) then Ok (Z.to_nat i)
  else if (- Z.of_nat n <=? i) && (i <? 0) then Ok (Z.to_nat (i + Z.of_nat n))
  else Raise IndexError.

(** ** [str] and [int] on integers *)

(** [str(z)]: the decimal literal, with a leading minus sign if negative. *)
Definition py_str (z : Z) : string := NilZero.string_of_int (Z.to_int z).

(** The blanks [int] skips around the literal of an ASCII string: tab, line
    feed, vertical tab, form feed, carriage return and space. *)
Definition is_space (c : ascii) : bool :=
  let n := nat_of_ascii c in
  ((9 <=? n) && (n <=? 13) || (n =? 32))%nat.

Definition is_digit (c : ascii) : bool :=
  let n := nat_of_ascii c in ((48 <=? n) && (n <=? 57))%nat.

Definition is_underscore (c : ascii) : bool := Ascii.eqb c "_"%char.

Fixpoint lstrip (l : list ascii) : list ascii :=
  match l with
  | c :: l' => if is_space c then lstrip l' else l
  | [] => []
  end.

Definition strip (l : list ascii) : list ascii := rev (lstrip (rev (lstrip l))).

(** The digits of an integer literal: [digit ("_"? digit)*]. *)
Fixpoint valid_body (after_digit : bool) (l : list ascii) : bool :=
  match l with
  | [] => after_digit
  | c :: l' =>
      if is_digit c then valid_body true l'
      else if is_underscore c then after_digit && valid_body false l'
      else false
  end.

Definition body_value (l : list ascii) : result Z :=
  if valid_body false l then
    match NilEmpty.uint_of_string
            (string_of_list_ascii (filter (λ c, is_underscore c = false) l)) with
    | Some d => Ok (Z.of_uint d)
    | None => Raise ValueError
    end
  else Raise ValueError.

(** [int(s)] for a str [s] in base 10: surrounding whitespace is dropped, an
    optional sign is read, then digits with single underscores between them.
    (Digits and spaces outside ASCII are not modelled.) *)
Definition py_int (s : string) : result Z :=
  match strip (list_ascii_of_string s) with
  | c :: l =>
      if Ascii.eqb c "-"%char then Z.opp <$> body_value l
      else if Ascii.eqb c "+"%char then body_value l
      else body_value (c :: l)
  | [] => Raise ValueError
  end.

(** [s[n:]] *)
Fixpoint py_drop (n : nat) (s : string) : string :=
  match n, s with
  | O, _ => s
  | S n', String _ s' => py_drop n' s'
  | S _, EmptyString => EmptyString
  end.

(** ** Stats Extractor: [desired_fields] (dota_data.py 58-73, opendota.py 44-53) *)

Definition stat_names : list string :=
  ["kills"; "deaths"; "assists"; "gold_per_min"; "xp_per_min"].

(** [sums[team][i] += p[stat]]: the target [sums[team][i]] is loaded first,
    then [p[stat]] is evaluated, added and stored back. *)
Definition add_stat (p : pyval) (team : Z) (sums : list (list Z)) (i_stat : nat * string)
  : result (list (list Z)) :=
  let '(i, stat) := i_stat in
  t ← py_index (length sums) team;
  match sums !! t with
  | Some row =>
      match row !! i with
      | Some old =>
          x ← py_getitem p stat;
          n ← as_int x;
          Ok (<[t := <[i := old + n]> row]> sums)
      | None => Raise IndexError
      end
  | None => Raise IndexError
  end.

(** The body of [for p in match["players"]]. *)
Definition add_player (sums : list (list Z)) (p : pyval) : result (list (list Z)) :=
  slot ← py_getitem p "player_slot";
  slot ← as_int slot;
  let team := slot `div` 128 in
  foldE (add_stat p team) (imap (λ i stat, (i, stat)) stat_names) sums.

(** The 13-tuple is a list of Python values: the three identifiers are passed
    through as received, the ten sums are integers. *)
Definition desired_fields (match_ : pyval) : result (list pyval) :=
  match_id ← py_getitem match_ "match_id";
  id0 ← py_getitem match_ "radiant_team_id";
  id1 ← py_getitem match_ "dire_team_id";
  let sums := [[0; 0; 0; 0; 0]; [0; 0; 0; 0; 0]] in
  players ← py_getitem match_ "players";
  players ← py_iter players;
  sums ← foldE add_player players sums;
  Ok ([match_id; id0] ++ (PInt <$> default [] (sums !! 0%nat))
        ++ [id1] ++ (PInt <$> default [] (sums !! 1%nat)))%list.

(** The extractor as the specification words it: per team, the totals of the
    five statistics over exactly the players whose slot lies in the team's
    range. *)
Definition field_int (p : pyval) (name : string) : Z :=
  match py_getitem p name with
  | Ok (PInt z) => z
  | _ => 0
  end.

Definition sumZ (l : list Z) : Z := foldr Z.add 0 l.

Definition team_totals (lo hi : Z) (players : list pyval) : list Z :=
  (λ stat, sumZ ((λ p, field_int p stat)
                   <$> filter (λ p, lo ≤ field_int p "player_slot" ≤ hi) players))
    <$> stat_names.

(** A player object that carries [player_slot] in 0..255 and the five
    statistics, all integers. *)
Definition well_formed_player (p : pyval) : Prop :=
  (∃ slot, py_getitem p "player_slot" = Ok (PInt slot) ∧ 0 ≤ slot ≤ 255)
  ∧ Forall (λ stat, ∃ z, py_getitem p stat = Ok (PInt z)) stat_names.

(** ** The outside world *)

(** What the program keeps on disk.  A run with a given [season_id] and
    [csv_filename] names two files, taken to be distinct: the pairing cache, a
    JSON object whose members are listed in the order of the text, and the
    table, whose rows (header first) are the field lists [csv.reader] yields.
    [journal] lists the names of the files opened for writing, oldest first. *)
Record disk : Type := Disk {
  pairing_cache : option (list (string * Z));
  table : option (list (list string));
  journal : list string
}.

(** One cell of the middle column of the match list: the [href] of its
    anchor, and whether it holds the [<span>] crown. *)
Record td : Type := Td { td_a_href : option string; td_span : bool }.

(** What a response holds, as the parsers of the program see it. *)
Inductive response : Type :=
  | ListingPage (middle_columns : list td)
  | MatchPage (od_link : option string)
  | JsonBody (j : pyval)
  | OtherBody.

(** The clock counts ticks; [ops] counts the primitive operations performed,
    and indexes the delays of the environment. *)
Record world : Type := World {
  clock : Z;
  ops : nat;
  requests : list (Z * string);   (* start instant and URL of each request issued *)
  console : list string;          (* the lines written with [print] *)
  storage : disk
}.

Definition set_clock (t : Z) (w : world) : world :=
  World t (S (ops w)) (requests w) (console w) (storage w).
Definition log_request (t : Z) (url : string) (w : world) : world :=
  World (clock w) (ops w) (requests w ++ [(t, url)]) (console w) (storage w).
Definition log_console (msg : string) (w : world) : world :=
  World (clock w) (ops w) (requests w) (console w ++ [msg]) (storage w).
Definition set_storage (d : disk) (w : world) : world :=
  World (clock w) (ops w) (requests w) (console w) d.

(** State and exceptions. *)
Definition ST (S A : Type) : Type := S → result A * S.

#[global] Instance ST_ret {S} : MRet (ST S) := λ A a s, (Ok a, s).
#[global] Instance ST_bind {S} : MBind (ST S) := λ A B f m s,
  match m s with
  | (Ok a, s') => f a s'
  | (Raise e, s') => (Raise e, s')
  end.

Definition liftE {S A} (r : result A) : ST S A := λ s, (r, s).

Fixpoint foldM {S T A : Type} (f : T → A → ST S T) (l : list A) (t : T) : ST S T :=
  match l with
  | [] => mret t
  | x :: l' => t' ← f t x; foldM f l' t'
  end.

Definition M : Type → Type := ST world.

(** ** Python dicts: insertion-ordered, one binding per key *)

Section dict.
Context {K V : Type} `{EqDecision K}.

Fixpoint dict_set (d : list (K * V)) (k : K) (v : V) : list (K * V) :=
  match d with
  | [] => [(k, v)]
  | (k', v') :: d' =>
      if decide (k = k') then (k', v) :: d' else (k', v') :: dict_set d' k v
  end.

Fixpoint dict_get (d : list (K * V)) (k : K) : option V :=
  match d with
  | [] => None
  | (k', v') :: d' => if decide (k = k') then Some v' else dict_get d' k
  end.

(** [a | b] *)
Definition dict_union (a b : list (K * V)) : list (K * V) :=
  foldl (λ d kv, dict_set d kv.1 kv.2) a b.

Definition dict_keys (d : list (K * V)) : list K := d.*1.
Definition dict_values (d : list (K * V)) : list V := d.*2.
End dict.

(** A key of the dict handed to [json.dump]: loaded keys are [str], the keys
    of [new_pairings] are [int]. *)
Inductive pykey : Type := KStr (s : string) | KInt (z : Z).

#[global] Instance pykey_eq_dec : EqDecision pykey.
Proof. solve_decision. Defined.

(** [json.load] of an object: members are inserted in order. *)
Definition json_load (members : list (string * Z)) : list (string * Z) :=
  dict_union [] members.

(** [json.dump] of a dict: each key is written as text, an [int] key through
    its decimal literal. *)
Definition key_text (k : pykey) : string :=
  match k with KStr s => s | KInt z => py_str z end.
Definition json_dump (d : list (pykey * Z)) : list (string * Z) :=
  prod_map key_text id <$> d.

(** ** Scrapers *)

(** [int(v)] *)
Definition py_int_of (v : pyval) : result Z :=
  match v with
  | PStr s => py_int s
  | PInt z => Ok z
  | PBool b => Ok (Z.b2z b)
  | _ => Raise TypeError
  end.

(** [row[0]] *)
Definition row_head (row : list pyval) : result pyval :=
  match row with
  | c :: _ => Ok c
  | [] => Raise IndexError
  end.

(** Match-List Scanner (dota_data.py 28-42).  The page is given as the middle
    columns BeautifulSoup finds under [tbody]; any other body has no [tbody]. *)
Definition scrape_ld2l_completed_matches (content : response) : result (gset Z) :=
  match content with
  | ListingPage middle_columns =>
      ids ← mapE (λ c, match td_a_href c with
                       | Some href => py_int (py_drop 9 href)
                       | None => Raise TypeError
                       end)
                 (filter (λ c, td_span c = true) middle_columns);
      Ok (list_to_set ids)
  | _ => Raise AttributeError
  end.

(** Identifier Mapper (dota_data.py 45-55): [od_link] is the [href] of the
    element [select_one] returns, if any. *)
Definition ld2l_to_opendota (content : response) : result Z :=
  match content with
  | MatchPage (Some od_link) => py_int (py_drop 33 od_link)
  | _ => Raise TypeError
  end.

(** [response.json()] *)
Definition response_json (r : response) : result pyval :=
  match r with
  | JsonBody j => Ok j
  | _ => Raise JSONDecodeError
  end.

(** ** Rate-Limited Fetcher (dota_data.py 12-25) *)

Record RateLimitedPuller : Type := Puller {
  duration : Z;
  prev_pull : Z;
  base_url : string
}.

(** [__init__] *)
Definition RateLimitedPuller_init (seconds : Z) (base_url : string) : RateLimitedPuller :=
  {| duration := seconds; prev_pull := 0; base_url := base_url |}.

Definition header : list string :=
  ["match_id"; "radiant_team_id"; "r_kills"; "r_deaths"; "r_assists"; "r_xpm"; "r_gpm";
   "dire_team_id"; "d_kills"; "d_deaths"; "d_assists"; "d_xpm"; "d_gpm"].

(** A match record with the four fields [desired_fields] reads. *)
Definition match_record (match_id radiant dire : pyval) (players : list pyval) : pyval :=
  PDict [("match_id", match_id); ("radiant_team_id", radiant);
         ("dire_team_id", dire); ("players", PList players)].

(** The row of [sums] that [sums[slot // 128]] designates when the slot lies
    in -256..255: Python counts a negative index from the end. *)
Definition team_index (slot : Z) : Z := (slot `div` 128) `mod` 2.

Definition totals_of_team (team : Z) (players : list pyval) : list Z :=
  (λ stat, sumZ ((λ p, field_int p stat)
                   <$> filter (λ p, team_index (field_int p "player_slot") = team)
                         players))
    <$> stat_names.

(** A player object whose slot is any index [sums[...]] accepts. *)
Definition indexable_player (p : pyval) : Prop :=
  (∃ slot, py_getitem p "player_slot" = Ok (PInt slot) ∧ -256 ≤ slot ≤ 255)
  ∧ Forall (λ stat, ∃ z, py_getitem p stat = Ok (PInt z)) stat_names.

(** A player object that carries a usable slot, or none, and from which one
    of the six fields read by [desired_fields] is absent, the fields present
    being integers. *)
Definition lacks_a_field (p : pyval) : Prop :=
  py_getitem p "player_slot" = Raise KeyError
  ∨ ((∃ slot, py_getitem p "player_slot" = Ok (PInt slot) ∧ -256 ≤ slot ≤ 255)
     ∧ Forall (λ stat, (∃ z, py_getitem p stat = Ok (PInt z))
                       ∨ py_getitem p stat = Raise KeyError) stat_names
     ∧ Exists (λ stat, py_getitem p stat = Raise KeyError) stat_names).

(** The total of one statistic over the players of one team. *)
Definition team_stat (team : Z) (stat : string) (players : list pyval) : Z :=
  sumZ ((λ p, field_int p stat)
          <$> filter (λ p, team_index (field_int p "player_slot") = team) players).

(** ** Hosts and spacing of the requests of a log *)

Definition to_ld2l (url : string) : bool := String.prefix "https://ld2l.gg/" url.
Definition to_opendota (url : string) : bool :=
  String.prefix "https://api.opendota.com/api/" url.

(** Any two requests of the log to ld2l.gg start at least [d_ld2l] apart,
    any two to OpenDota at least [d_od] apart. *)
Definition spaced (d_ld2l d_od : Z) (log : list (Z * string)) : Prop :=
  ∀ i j t1 u1 t2 u2,
    (i < j)%nat → log !! i = Some (t1, u1) → log !! j = Some (t2, u2) →
    (to_ld2l u1 = true → to_ld2l u2 = true → d_ld2l ≤ t2 - t1)
    ∧ (to_opendota u1 = true → to_opendota u2 = true → d_od ≤ t2 - t1).

(** The log is spaced, and each puller has recorded an instant no earlier
    than the start of every request to its host. *)
Definition polite (ld2l_puller od_puller : RateLimitedPuller) (log : list (Z * string))
  : Prop :=
  spaced (duration ld2l_puller) (duration od_puller) log
  ∧ Forall (λ tu, (to_ld2l tu.2 = true → tu.1 ≤ prev_pull ld2l_puller)
                  ∧ (to_opendota tu.2 = true → tu.1 ≤ prev_pull od_puller)) log.

(** ** [save_csv] (dota_data.py 76-87) *)

(** [str(r)] for a tuple of integers. *)
Definition tuple_str (r : list Z) : string :=
  match r with
  | [] => "()"
  | [z] => "(" +:+ py_str z +:+ ",)"
  | _ => "(" +:+ String.concat ", " (py_str <$> r) +:+ ")"
  end.

Definition newline : string := String "010"%char EmptyString.

(** The files are kept by name, each with the text it holds; the rows are
    tuples of integers.  [",".join(str(r))] iterates over the characters of
    the string [str(r)]. *)
Definition save_csv (match_data_rows : list (list Z)) (out_file : string)
    (files : gmap string string) : gmap string string :=
  let header := "match_id,radiant_team_id,r_kills,r_deaths,r_assists,r_xpm,r_gpm,"
                +:+ "dire_team_id,d_kills,d_deaths,d_assists,d_xpm,d_gpm" in
  let match_data_strings :=
    (λ r, String.concat "," (chars (tuple_str r))) <$> match_data_rows in
  <[out_file := String.concat newline (header :: match_data_strings)]> files.

(** ** Sample records, pages and worlds *)

Definition sample_player (slot kills deaths assists gpm xpm : Z) : pyval :=
  PDict [("player_slot", PInt slot); ("kills", PInt kills); ("deaths", PInt deaths);
         ("assists", PInt assists); ("gold_per_min", PInt gpm); ("xp_per_min", PInt xpm)].

(** Five players in slots 0..4 and five in slots 128..132. *)
Definition sample_match (match_id : Z) : pyval :=
  PDict [("match_id", PInt match_id);
         ("radiant_team_id", PInt 7);
         ("dire_team_id", PInt 8);
         ("players",
          PList [sample_player 0 1 2 3 400 500; sample_player 1 2 3 4 410 510;
                 sample_player 2 3 4 5 420 520; sample_player 3 4 5 6 430 530;
                 sample_player 4 5 6 7 440 540;
                 sample_player 128 10 1 1 300 350; sample_player 129 20 1 1 310 360;
                 sample_player 130 30 1 1 320 370; sample_player 131 40 1 1 330 380;
                 sample_player 132 50 1 1 340 390])].

(** Season 33 lists three matches; 101 and 103 carry the crown.  Match 101
    was played as OpenDota match 55555, match 103 was forfeited. *)
Definition sample_http (url : string) : option response :=
  if String.eqb url "https://ld2l.gg/seasons/33/matches" then
    Some (ListingPage [Td (Some "/matches/101") true; Td (Some "/matches/102") false;
                       Td (Some "/matches/103") true])
  else if String.eqb url "https://ld2l.gg/matches/101" then
    Some (MatchPage (Some "https://www.opendota.com/matches/55555"))
  else if String.eqb url "https://ld2l.gg/matches/103" then
    Some (MatchPage (Some "https://www.opendota.com/matches/0"))
  else if String.eqb url "https://api.opendota.com/api/matches/55555" then
    Some (JsonBody (sample_match 55555))
  else None.

(** The same season with match 101 alone, and a Stats Source that answers
    the request for match 55555 with a record whose [match_id] is 0. *)
Definition unfaithful_http (url : string) : option response :=
  if String.eqb url "https://ld2l.gg/seasons/33/matches" then
    Some (ListingPage [Td (Some "/matches/101") true])
  else if String.eqb url "https://ld2l.gg/matches/101" then
    Some (MatchPage (Some "https://www.opendota.com/matches/55555"))
  else if String.eqb url "https://api.opendota.com/api/matches/55555" then
    Some (JsonBody (sample_match 0))
  else None.

(** The listing shows match 101 and nothing else answers. *)
Definition settled_http (url : string) : option response :=
  if String.eqb url "https://ld2l.gg/seasons/33/matches" then
    Some (ListingPage [Td (Some "/matches/101") true])
  else None.

(** A season whose listing shows no completed match. *)
Definition quiet_http (url : string) : option response :=
  if String.eqb url "https://ld2l.gg/seasons/33/matches" then Some (ListingPage [])
  else None.

(** Every request raises. *)
Definition down_http (url : string) : option response := None.

(** Every primitive operation is delayed by one tick. *)
Definition unit_lag (n : nat) : Z := 1.

Definition no_container_str (v : pyval) : string := "".

(** First run: nothing on disk. *)
Definition fresh_world : world := World 1700000000 0 [] [] (Disk None None []).

(** A disk left by earlier runs, with match 101 paired and its row stored. *)
Definition synced_disk : disk :=
  Disk (Some [("101", 55555)])
       (Some [header;
              ["55555"; "7"; "15"; "20"; "25"; "2100"; "2600";
               "8"; "150"; "5"; "5"; "1600"; "1850"]])
       [].

Definition synced_world : world := World 1700000000 0 [] [] synced_disk.

(** A pairing cache that knows an informal id the listing does not show. *)
Definition stale_world : world :=
  World 1700000000 0 [] [] (Disk (Some [("999", 0)]) None []).

(** Two players with negative slots and one in slot 130. *)
Definition wrapped_players : list pyval :=
  [sample_player (-1) 1 2 3 4 5; sample_player (-200) 10 20 30 40 50;
   sample_player 130 100 200 300 400 500].

(** A player record without [assists], [gold_per_min] and [xp_per_min]. *)
Definition broken_player : pyval :=
  PDict [("player_slot", PInt 0); ("kills", PInt 1); ("deaths", PInt 1)].


(** No primitive operation takes any time. *)
Definition no_lag (n : nat) : Z := 0.

(** A pairing cache with a key that is not an integer literal. *)
Definition garbled_world : world :=
  World 1700000000 0 [] [] (Disk (Some [("abc", 1)]) None []).

(** Match 101 is paired but the table file is missing. *)
Definition backlog_world : world :=
  World 1700000000 0 [] [] (Disk (Some [("101", 55555)]) None []).

(** Season 33 later on: matches 101 and 102 were played as OpenDota matches
    55555 and 66666, match 103 was forfeited, match 104 was played as
    OpenDota match 77777. *)
Definition grown_http (url : string) : option response :=
  if String.eqb url "https://ld2l.gg/seasons/33/matches" then
    Some (ListingPage [Td (Some "/matches/101") true; Td (Some "/matches/102") true;
                       Td (Some "/matches/103") true; Td (Some "/matches/104") true])
  else if String.eqb url "https://ld2l.gg/matches/101" then
    Some (MatchPage (Some "https://www.opendota.com/matches/55555"))
  else if String.eqb url "https://ld2l.gg/matches/102" then
    Some (MatchPage (Some "https://www.opendota.com/matches/66666"))
  else if String.eqb url "https://ld2l.gg/matches/103" then
    Some (MatchPage (Some "https://www.opendota.com/matches/0"))
  else if String.eqb url "https://ld2l.gg/matches/104" then
    Some (MatchPage (Some "https://www.opendota.com/matches/77777"))
  else if String.eqb url "https://api.opendota.com/api/matches/77777" then
    Some (JsonBody (sample_match 77777))
  else None.

(** A disk left by earlier runs, with matches 101 and 102 paired and their
    rows stored. *)
Definition two_match_world : world :=
  World 1700000000 0 [] []
    (Disk (Some [("101", 55555); ("102", 66666)])
          (Some [header;
                 ["55555"; "7"; "15"; "20"; "25"; "2100"; "2600";
                  "8"; "150"; "5"; "5"; "1600"; "1850"];
                 ["66666"; "7"; "12"; "22"; "30"; "2000"; "2500";
                  "9"; "140"; "6"; "4"; "1700"; "1900"]])
          []).

Section program.
(** The environment of a run: what each URL answers ([None] when
    [requests.get] raises), how long the [n]-th primitive operation is
    delayed, the number of clock ticks in a second, the order in which a
    for loop visits a set, and [str] of a list or dict (which only matters
    for a malformed record). *)
Variable http : string → option response.
Variable lag : nat → Z.
Variable hz : Z.
Variable set_iter : gset Z → list Z.
Variable container_str : pyval → string.

(** [time.time()] *)
Definition time_time : M Z := λ w,
  let t := clock w + lag (ops w) in (Ok t, set_clock t w).

(** [time.sleep(secs)]: returns once at least [secs] have passed. *)
Definition time_sleep (secs : Z) : M unit := λ w,
  (Ok (), set_clock (clock w + secs + lag (ops w)) w).

(** [re.get(url)]: the request leaves at [start] and returns, or raises,
    some time later. *)
Definition re_get (url : string) : M response := λ w,
  let start := clock w + lag (ops w) in
  let w1 := log_request start url (set_clock start w) in
  let w2 := set_clock (start + lag (ops w1)) w1 in
  match http url with
  | Some r => (Ok r, w2)
  | None => (Raise ConnectionError, w2)
  end.

Definition print (msg : string) : M unit := λ w, (Ok (), log_console msg w).

(** A method body runs on [self] and the world. *)
Definition in_world {A} (m : M A) : ST (RateLimitedPuller * world) A := λ s,
  let '(r, w') := m s.2 in (r, (s.1, w')).
Definition get_self : ST (RateLimitedPuller * world) RateLimitedPuller := λ s,
  (Ok s.1, s).
Definition set_prev_pull (t : Z) : ST (RateLimitedPuller * world) unit := λ s,
  (Ok (), (Puller (duration s.1) t (base_url s.1), s.2)).

Definition pull (url : string) : ST (RateLimitedPuller * world) response :=
  now ← in_world time_time;
  self ← get_self;
  let time_since := now - prev_pull self in
  _ ← (if decide (time_since < duration self)
       then in_world (time_sleep (duration self - time_since))
       else mret ());
  response ← in_world (re_get (base_url self +:+ url));
  t ← in_world time_time;
  _ ← set_prev_pull t;
  mret response.

(** [p.m(...)] from the orchestrator, which holds [p] in a local variable. *)
Definition call {A} (p : RateLimitedPuller) (m : ST (RateLimitedPuller * world) A)
  : M (RateLimitedPuller * A) := λ w,
  match m (p, w) with
  | (Ok a, (p', w')) => (Ok (p', a), w')
  | (Raise e, (_, w')) => (Raise e, w')
  end.

(** A sequence of successful calls of [pull] on one instance: [self] is
    carried from one call to the next, the world in which each call starts is
    whatever the rest of the program made of it.  The list holds the start
    instants of the requests issued, in order. *)
Inductive pulls : RateLimitedPuller → list Z → Prop :=
  | pulls_done p : pulls p []
  | pulls_next p w url r p' w' start starts :
      pull url (p, w) = (Ok r, (p', w')) →
      requests w' = requests w ++ [(start, base_url p +:+ url)] →
      pulls p' starts →
      pulls p (start :: starts).

(** ** Files *)

(** [json.load] of the pairing cache, [{}] when the file is missing. *)
Definition read_pairing_cache : M (list (string * Z)) := λ w,
  (Ok (match pairing_cache (storage w) return list (string * Z) with
       | Some members => json_load members
       | None => []
       end), w).

(** [list(iter(csv.reader(fh)))[1:]], [[]] when the file is missing. *)
Definition read_table : M (list (list pyval)) := λ w,
  (Ok (match table (storage w) return list (list pyval) with
       | Some rows => fmap (M:=list) PStr <$> drop 1 rows
       | None => []
       end), w).

Definition write_pairing_cache (name : string) (d : list (pykey * Z)) : M unit := λ w,
  (Ok (), set_storage (Disk (Some (json_dump d)) (table (storage w))
                            (journal (storage w) ++ [name])) w).

(** The text [csv.writer] gives a field. *)
Definition csv_text (v : pyval) : string :=
  match v with
  | PNone => ""
  | PBool true => "True"
  | PBool false => "False"
  | PInt z => py_str z
  | PStr s => s
  | _ => container_str v
  end.

Definition write_table (name : string) (rows : list (list pyval)) : M unit := λ w,
  (Ok (), set_storage (Disk (pairing_cache (storage w))
                            (Some (header :: (fmap (M:=list) csv_text <$> rows)))
                            (journal (storage w) ++ [name])) w).

(** ** Reconciliation Engine (dota_data.py 90-165) *)

(** [desired_fields(od_puller.pull(f"matches/{od_id}").json())] *)
Definition pull_match_data (od_puller : RateLimitedPuller) (od_id : Z)
  : M (RateLimitedPuller * list pyval) :=
  '(od_puller, r) ← call od_puller (pull ("matches/" +:+ py_str od_id));
  j ← liftE (response_json r);
  row ← liftE (desired_fields j);
  mret (od_puller, row).

(** What lines 108-122 leave in local variables. *)
Record caches : Type := Caches {
  cached_id_pairings : list (string * Z);
  cached_ld2l_ids : gset Z;
  known_match_data : list (list pyval);
  known_data_ids : gset Z
}.

(** [set(cached_id_pairings.values())] *)
Definition cached_od_ids (c : caches) : gset Z :=
  list_to_set (dict_values (cached_id_pairings c)).

(** [set(int(x) for x in d.keys())] *)
Definition int_keys (d : list (string * Z)) : result (gset Z) :=
  ids ← mapE py_int (dict_keys d); Ok (list_to_set ids).

(** [int(row[0]) for row in rows] *)
Definition row_id (row : list pyval) : result Z :=
  c ← row_head row; py_int_of c.

(** Load (lines 108-122). *)
Definition load_caches : M caches :=
  cached_id_pairings ← read_pairing_cache;
  cached_ld2l_ids ← liftE (int_keys cached_id_pairings);
  known_match_data ← read_table;
  ids ← liftE (mapE row_id known_match_data);
  mret (Caches cached_id_pairings cached_ld2l_ids known_match_data (list_to_set ids)).

(** Body of the loop of lines 129-130. *)
Definition backfill_step (st : RateLimitedPuller * list (list pyval)) (missing_id : Z)
  : M (RateLimitedPuller * list (list pyval)) :=
  let '(od_puller, known_match_data) := st in
  '(od_puller, row) ← pull_match_data od_puller missing_id;
  mret (od_puller, known_match_data ++ [row]).

(** [cached_but_no_data] after the [discard(0)] of line 126. *)
Definition cached_but_no_data (c : caches) : gset Z :=
  (cached_od_ids c ∖ known_data_ids c) ∖ {[0]}.

(** Backfill check and orphan check (lines 125-134).  [tqdm] hands the loop
    the items of the set in iteration order; the progress bar it draws on
    standard error is not recorded. *)
Definition check_caches (od_puller : RateLimitedPuller) (c : caches)
  : M (RateLimitedPuller * list (list pyval)) :=
  st ← (if decide (size (cached_but_no_data c) ≠ 0%nat) then
          _ ← print "Warning: csv file missing data on IDs in cache. Pulling missing match data...";
          foldM backfill_step (set_iter (cached_but_no_data c))
                (od_puller, known_match_data c)
        else mret (od_puller, known_match_data c));
  let data_but_no_cache := known_data_ids c ∖ cached_od_ids c in
  _ ← (if decide (size data_but_no_cache ≠ 0%nat)
       then print "Warning: csv file contains data on IDs not present in cache."
       else mret ());
  mret st.

(** Discover new matches (lines 137-139): the set scraped from the listing,
    once the assertion has passed. *)
Definition discover (ld2l_puller : RateLimitedPuller) (season_id : Z) (c : caches)
  : M (RateLimitedPuller * gset Z) :=
  '(ld2l_puller, r) ←
    call ld2l_puller (pull ("seasons/" +:+ py_str season_id +:+ "/matches"));
  currently_posted ← liftE (scrape_ld2l_completed_matches r);
  _ ← (if decide (size (cached_ld2l_ids c ∖ currently_posted) = 0%nat)
       then mret () else liftE (Raise AssertionError));
  mret (ld2l_puller, currently_posted).

(** Body of the loop of lines 147-151. *)
Definition new_match_step (known_data_ids : gset Z)
    (st : RateLimitedPuller * RateLimitedPuller * list (Z * Z) * list (list pyval))
    (ld2l_id : Z)
  : M (RateLimitedPuller * RateLimitedPuller * list (Z * Z) * list (list pyval)) :=
  let '(ld2l_puller, od_puller, new_pairings, known_match_data) := st in
  '(ld2l_puller, r) ← call ld2l_puller (pull ("matches/" +:+ py_str ld2l_id));
  od_id ← liftE (ld2l_to_opendota r);
  let new_pairings := dict_set new_pairings ld2l_id od_id in
  if decide (od_id ≠ 0 ∧ od_id ∉ known_data_ids) then
    '(od_puller, row) ← pull_match_data od_puller od_id;
    mret (ld2l_puller, od_puller, new_pairings, known_match_data ++ [row])
  else
    mret (ld2l_puller, od_puller, new_pairings, known_match_data).

(** Process new matches (lines 138, 144-153).  As at line 129, the progress
    bar of [tqdm] is not recorded. *)
Definition process_new (ld2l_puller od_puller : RateLimitedPuller) (c : caches)
    (known_match_data : list (list pyval)) (currently_posted : gset Z)
  : M (list (Z * Z) * list (list pyval)) :=
  let new_ld2l_ids := currently_posted ∖ cached_ld2l_ids c in
  if decide (0 < size new_ld2l_ids)%nat then
    '(_, _, new_pairings, known_match_data) ←
      foldM (new_match_step (known_data_ids c)) (set_iter new_ld2l_ids)
            (ld2l_puller, od_puller, [], known_match_data);
    mret (new_pairings, known_match_data)
  else
    _ ← print "No new matches.";
    mret ([], known_match_data).

(** [cached_id_pairings | new_pairings] *)
Definition merged_pairings (cached : list (string * Z)) (new_pairings : list (Z * Z))
  : list (pykey * Z) :=
  dict_union (prod_map KStr id <$> cached) (prod_map KInt id <$> new_pairings).

(** Everything up to line 153: no file is written here. *)
Definition gather_updates (season_id : Z)
  : M (list (string * Z) * list (Z * Z) * list (list pyval)) :=
  let ld2l_puller := RateLimitedPuller_init (15 * hz) "https://ld2l.gg/" in
  let od_puller := RateLimitedPuller_init (1 * hz) "https://api.opendota.com/api/" in
  c ← load_caches;
  '(od_puller, known_match_data) ← check_caches od_puller c;
  '(ld2l_puller, currently_posted) ← discover ld2l_puller season_id c;
  '(new_pairings, known_match_data) ←
    process_new ld2l_puller od_puller c known_match_data currently_posted;
  mret (cached_id_pairings c, new_pairings, known_match_data).

Definition update_data_for_season (season_id : Z) (csv_filename : option string)
  : M unit :=
  let csv_filename :=
    default ("selected_data" +:+ py_str season_id +:+ ".csv") csv_filename in
  let id_pairing_cache_file :=
    "ld2l_match_id_mapping_s" +:+ py_str season_id +:+ ".json" in
  '(cached_id_pairings, new_pairings, known_match_data) ← gather_updates season_id;
  (* Persist (lines 156-165) *)
  _ ← write_pairing_cache id_pairing_cache_file
        (merged_pairings cached_id_pairings new_pairings);
  write_table csv_filename known_match_data.

(** ** What a run computes, as a function of the disk and of the answers *)

(** The outcome of [re.get(url)]. *)
Definition fetch (url : string) : result response :=
  match http url with
  | Some r => Ok r
  | None => Raise ConnectionError
  end.

(** Stats Source: the summary row of [od_id]. *)
Definition match_data (od_id : Z) : result (list pyval) :=
  r ← fetch ("https://api.opendota.com/api/" +:+ ("matches/" +:+ py_str od_id));
  j ← response_json r;
  desired_fields j.

(** Match page of [ld2l_id] through the Identifier Mapper. *)
Definition od_id_of (ld2l_id : Z) : result Z :=
  r ← fetch ("https://ld2l.gg/" +:+ ("matches/" +:+ py_str ld2l_id));
  ld2l_to_opendota r.

(** Season listing through the Match-List Scanner. *)
Definition currently_posted_of (season_id : Z) : result (gset Z) :=
  r ← fetch ("https://ld2l.gg/" +:+ ("seasons/" +:+ py_str season_id +:+ "/matches"));
  scrape_ld2l_completed_matches r.

Definition loaded_pairings (d : disk) : list (string * Z) :=
  match pairing_cache d with
  | Some members => json_load members
  | None => []
  end.

Definition loaded_rows (d : disk) : list (list pyval) :=
  match table d with
  | Some rows => fmap (M:=list) PStr <$> drop 1 rows
  | None => []
  end.

Definition loaded (d : disk) : result caches :=
  cached_ld2l_ids ← int_keys (loaded_pairings d);
  ids ← mapE row_id (loaded_rows d);
  Ok (Caches (loaded_pairings d) cached_ld2l_ids (loaded_rows d) (list_to_set ids)).

Definition backfilled (c : caches) : result (list (list pyval)) :=
  if decide (size (cached_but_no_data c) ≠ 0%nat) then
    foldE (λ rows missing_id, row ← match_data missing_id; Ok (rows ++ [row]))
          (set_iter (cached_but_no_data c)) (known_match_data c)
  else Ok (known_match_data c).

Definition discovered (season_id : Z) (c : caches) : result (gset Z) :=
  currently_posted ← currently_posted_of season_id;
  if decide (size (cached_ld2l_ids c ∖ currently_posted) = 0%nat)
  then Ok currently_posted else Raise AssertionError.

Definition processed_step (known_data_ids : gset Z)
    (st : list (Z * Z) * list (list pyval)) (ld2l_id : Z)
  : result (list (Z * Z) * list (list pyval)) :=
  od_id ← od_id_of ld2l_id;
  if decide (od_id ≠ 0 ∧ od_id ∉ known_data_ids) then
    row ← match_data od_id;
    Ok (dict_set st.1 ld2l_id od_id, st.2 ++ [row])
  else Ok (dict_set st.1 ld2l_id od_id, st.2).

Definition processed (c : caches) (rows : list (list pyval)) (currently_posted : gset Z)
  : result (list (Z * Z) * list (list pyval)) :=
  let new_ld2l_ids := currently_posted ∖ cached_ld2l_ids c in
  if decide (0 < size new_ld2l_ids)%nat then
    foldE (processed_step (known_data_ids c)) (set_iter new_ld2l_ids) ([], rows)
  else Ok ([], rows).

Definition gathered (season_id : Z) (d : disk)
  : result (list (string * Z) * list (Z * Z) * list (list pyval)) :=
  c ← loaded d;
  rows ← backfilled c;
  currently_posted ← discovered season_id c;
  '(new_pairings, rows) ← processed c rows currently_posted;
  Ok (cached_id_pairings c, new_pairings, rows).

(** The disk after the two writes of lines 156-165. *)
Definition persisted (season_id : Z) (csv_filename : option string) (d : disk)
    (u : list (string * Z) * list (Z * Z) * list (list pyval)) : disk :=
  Disk (Some (json_dump (merged_pairings u.1.1 u.1.2)))
       (Some (header :: (fmap (M:=list) csv_text <$> u.2)))
       (journal d ++ ["ld2l_match_id_mapping_s" +:+ py_str season_id +:+ ".json";
                      default ("selected_data" +:+ py_str season_id +:+ ".csv")
                              csv_filename]).

(** [tracks R m p]: on every world, [m] leaves the disk alone, raises
    [ConnectionError] whenever one of the requests it issues is not
    answered, and ends as [p] says, the results being related by [R]. *)
Definition tracks {A B} (R : A → B → Prop) (m : M A) (p : disk → result B) : Prop :=
  ∀ w,
    storage (m w).2 = storage w
    ∧ (∃ new, requests (m w).2 = requests w ++ new
              ∧ ∀ tu, tu ∈ new → http tu.2 = None → (m w).1 = Raise ConnectionError)
    ∧ match (m w).1, p (storage w) with
      | Ok a, Ok b => R a b
      | Raise e, Raise e' => e = e'
      | _, _ => False
      end.

(** A puller held by the orchestrator next to a value: the value is the
    one expected and the puller still points at [b]. *)
Definition via {A} (b : string) (st : RateLimitedPuller * A) (x : A) : Prop :=
  st.2 = x ∧ base_url st.1 = b.

(** The same for the state of the loop of lines 147-151, which holds both
    pullers. *)
Definition via_both {A B} (st : RateLimitedPuller * RateLimitedPuller * A * B)
    (x : A * B) : Prop :=
  st.1.2 = x.1 ∧ st.2 = x.2
  ∧ base_url st.1.1.1 = "https://ld2l.gg/"
  ∧ base_url st.1.1.2 = "https://api.opendota.com/api/".

(** A row of [known_match_data] once written by [csv.writer] and read
    back by [csv.reader]. *)
Definition reread (row : list pyval) : list pyval := PStr <$> (csv_text <$> row).

(** ** Assumptions on the environment *)

(** A for loop over a set visits each member once, in some order. *)
Definition visits_each_once : Prop := ∀ s : gset Z, set_iter s ≡ₚ elements s.

(** The Stats Source answers [matches/{id}] with the record of match [id]. *)
Definition stats_source_faithful : Prop :=
  ∀ od_id j,
    http ("https://api.opendota.com/api/" +:+ ("matches/" +:+ py_str od_id))
      = Some (JsonBody j) →
    py_getitem j "match_id" = Ok (PInt od_id).

(** No two informal ids are mapped to the same Stats Match ID other than 0. *)
Definition mapper_injective : Prop :=
  ∀ k1 k2 v, od_id_of k1 = Ok v → od_id_of k2 = Ok v → v ≠ 0 → k1 = k2.

(** The [stats_match_id] of each row of a table file, read as line 122
    reads it. *)
Definition table_ids (t : option (list (list string))) : result (list Z) :=
  mapE row_id (match t with
               | Some rows => fmap (M:=list) PStr <$> drop 1 rows
               | None => []
               end).

(** ** A program logic for the orchestrator *)

(** [triple P m Q E]: started in a world where [P] holds, [m] ends in a
    world where [Q a] holds if it returns [a], and where [E] holds if it
    raises. *)
Definition triple {A} (P : world → Prop) (m : M A) (Q : A → world → Prop)
    (E : world → Prop) : Prop :=
  ∀ w, P w → match m w with
             | (Ok a, w') => Q a w'
             | (Raise _, w') => E w'
             end.

(** The URLs a run may request, given the caches it loaded: the listing of
    the season, the page of a match the loop of line 147 visits, the record
    of a match the loop of line 129 visits or that line 150 lets through. *)
Definition requested (season_id : Z) (c : caches) (url : string) : Prop :=
  url = "https://ld2l.gg/" +:+ ("seasons/" +:+ py_str season_id +:+ "/matches")
  ∨ (∃ posted k, k ∈ set_iter (posted ∖ cached_ld2l_ids c)
                 ∧ url = "https://ld2l.gg/" +:+ ("matches/" +:+ py_str k))
  ∨ (∃ v, (v ∈ set_iter (cached_but_no_data c) ∨ (v ≠ 0 ∧ v ∉ known_data_ids c))
          ∧ url = "https://api.opendota.com/api/" +:+ ("matches/" +:+ py_str v)).

(** Time does not run backwards. *)
Definition calm : Prop := 0 ≤ hz ∧ ∀ n, 0 ≤ lag n.

(** Where a run stands, [w0] being the world it started in: what it has
    printed, what it has requested, and the two pullers it holds. *)
Definition engaged (w0 : world) (season_id : Z) (c : caches) (printed : list string)
    (ld2l_puller od_puller : RateLimitedPuller) (w : world) : Prop :=
  base_url ld2l_puller = "https://ld2l.gg/"
  ∧ duration ld2l_puller = 15 * hz
  ∧ base_url od_puller = "https://api.opendota.com/api/"
  ∧ duration od_puller = 1 * hz
  ∧ console w = console w0 ++ printed
  ∧ ∃ new, requests w = requests w0 ++ new
           ∧ Forall (λ tu, requested season_id c tu.2) new
           ∧ (calm → polite ld2l_puller od_puller new).

(** Where a run that raised stands. *)
Definition aborted (w0 : world) (season_id : Z) (c : caches) (w : world) : Prop :=
  ∃ new, requests w = requests w0 ++ new
         ∧ Forall (λ tu, requested season_id c tu.2) new
         ∧ (calm → spaced (15 * hz) (1 * hz) new).

(** The lines a completed run writes with [print]. *)
Definition printed_by_run (c : caches) (currently_posted : gset Z) : list string :=
  (if decide (size (cached_but_no_data c) ≠ 0%nat)
   then ["Warning: csv file missing data on IDs in cache. Pulling missing match data..."]
   else [])
  ++ (if decide (size (known_data_ids c ∖ cached_od_ids c) ≠ 0%nat)
      then ["Warning: csv file contains data on IDs not present in cache."]
      else [])
  ++ (if decide (0 < size (currently_posted ∖ cached_ld2l_ids c))%nat
      then []
      else ["No new matches."]).

(** ** Reasoning rules for [tracks] *)

Lemma tracks_ret {A B} (R : A → B → Prop) a b :
  R a b → tracks R (mret a) (λ _, Ok b).
Proof.
  intros HR w. cbn. split; [done|]. split; [|done].
  exists []. rewrite app_nil_r. split; [done|]. intros tu Hin. by apply elem_of_nil in Hin.
Qed.

Lemma tracks_liftE {A} (r : result A) : tracks eq (liftE r) (λ _, r).
Proof.
  intros w. cbn. split; [done|]. split.
  - exists []. rewrite app_nil_r. split; [done|]. intros tu Hin. by apply elem_of_nil in Hin.
  - by destruct r.
Qed.

Lemma tracks_bind {A A' B B'} (R : A → A' → Prop) (S : B → B' → Prop)
    (m : M A) (f : A → M B) p g :
  tracks R m p →
  (∀ a a', R a a' → tracks S (f a) (g a')) →
  tracks S (m ≫= f) (λ d, p d ≫= λ a', g a' d).
Proof.
  intros Hm Hf w. destruct (Hm w) as (Hst & (new & Hreq & Hnew) & Hres).
  unfold mbind, ST_bind. destruct (m w) as [[a|e] w1] eqn:Hmw; cbn in *.
  - destruct (p (storage w)) as [a'|e'] eqn:Hp; [|done]. cbn.
    destruct (Hf a a' Hres w1) as (Hst' & (new' & Hreq' & Hnew') & Hres').
    rewrite Hst in Hst', Hres'. split; [done|]. split; [|done].
    exists (new ++ new'). rewrite Hreq', Hreq, app_assoc. split; [done|].
    intros tu [Hin|Hin]%elem_of_app Hnone; [|by apply (Hnew' tu)].
    by specialize (Hnew tu Hin Hnone).
  - destruct (p (storage w)) as [a'|e'] eqn:Hp; [done|]. cbn.
    split; [done|]. split; [|done]. exists new. split; [done|]. intros tu Hin Hnone.
    specialize (Hnew tu Hin Hnone). by simplify_eq.
Qed.

Lemma tracks_weaken {A B} (R R' : A → B → Prop) (m : M A) p p' :
  tracks R m p → (∀ a b, R a b → R' a b) → (∀ d, p d = p' d) → tracks R' m p'.
Proof.
  intros Hm HR Hp w. destruct (Hm w) as (Hst & Hreq & Hres).
  split; [done|]. split; [done|]. rewrite <- Hp.
  destruct (m w).1, (p (storage w)); auto.
Qed.

Lemma tracks_ext {A B} (R : A → B → Prop) (m : M A) p p' :
  tracks R m p → (∀ d, p d = p' d) → tracks R m p'.
Proof. intros Hm Hp. by apply (tracks_weaken R R m p p'). Qed.

Lemma tracks_foldM {T T' A} (R : T → T' → Prop) (f : T → A → M T) g l :
  (∀ t t' x, R t t' → tracks R (f t x) (λ _, g t' x)) →
  ∀ t t', R t t' → tracks R (foldM f l t) (λ _, foldE g l t').
Proof.
  intros Hf. induction l as [|x l IH]; intros t t' HR; cbn [foldM foldE].
  - by apply tracks_ret.
  - apply (tracks_bind R R (f t x) (λ t1, foldM f l t1)
             (λ _, g t' x) (λ t1' _, foldE g l t1')); [by apply Hf|].
    intros a a' Ha. by apply IH.
Qed.

Lemma tracks_print msg : tracks eq (print msg) (λ _, Ok ()).
Proof.
  intros w. cbn. split; [done|]. split; [|done].
  exists []. rewrite app_nil_r. split; [done|]. intros tu Hin. by apply elem_of_nil in Hin.
Qed.

Lemma tracks_read_pairing_cache :
  tracks eq read_pairing_cache (λ d, Ok (loaded_pairings d)).
Proof.
  intros w. cbn. split; [done|]. split; [|done].
  exists []. rewrite app_nil_r. split; [done|]. intros tu Hin. by apply elem_of_nil in Hin.
Qed.

Lemma tracks_read_table : tracks eq read_table (λ d, Ok (loaded_rows d)).
Proof.
  intros w. cbn. split; [done|]. split; [|done].
  exists []. rewrite app_nil_r. split; [done|]. intros tu Hin. by apply elem_of_nil in Hin.
Qed.

(** One call of [pull]: what it returns, what it logs, what it leaves in
    [self]. *)
Lemma pull_spec url p w :
  ∃ start w',
    requests w' = requests w ++ [(start, base_url p +:+ url)]
    ∧ storage w' = storage w
    ∧ ((∀ n, 0 ≤ lag n) → prev_pull p + duration p ≤ start ∧ start ≤ clock w')
    ∧ match http (base_url p +:+ url) with
      | Some r =>
          pull url (p, w) = (Ok r, (Puller (duration p) (clock w') (base_url p), w'))
      | None => pull url (p, w) = (Raise ConnectionError, (p, w'))
      end.
Proof.
  unfold pull, mbind, ST_bind, in_world, get_self, set_prev_pull, time_time, time_sleep,
    re_get. cbn.
  destruct (decide (clock w + lag (ops w) - prev_pull p < duration p)) as [Hlt|Hge]; cbn;
    destruct (http (base_url p +:+ url)) as [r|] eqn:Hhttp; cbn;
    eexists _, (World _ _ _ _ _); cbn; (split; [reflexivity|]); (split; [reflexivity|]);
    (split; [|reflexivity]); cbn; intros Hlag;
    repeat match goal with |- context [lag ?n] =>
             lazymatch goal with
             | H : 0 ≤ lag n |- _ => fail
             | _ => pose proof (Hlag n)
             end
           end; lia.
Qed.


Lemma tracks_call_pull p url :
  tracks (via (base_url p)) (call p (pull url)) (λ _, fetch (base_url p +:+ url)).
Proof.
  intros w. destruct (pull_spec url p w) as (start & w' & Hreq & Hst & _ & Hres).
  unfold call, fetch. destruct (http (base_url p +:+ url)) as [r|] eqn:Hhttp;
    rewrite Hres; cbn; (split; [done|]); (split; [|done]);
    exists [(start, base_url p +:+ url)]; (split; [done|]);
    intros tu ->%list_elem_of_singleton; cbn; congruence.
Qed.

Lemma tracks_pull_match_data p od_id :
  base_url p = "https://api.opendota.com/api/" →
  tracks (via "https://api.opendota.com/api/")
         (pull_match_data p od_id) (λ _, match_data od_id).
Proof.
  intros Hp. unfold pull_match_data, match_data. rewrite <- Hp.
  eapply tracks_weaken.
  - eapply tracks_bind; [apply tracks_call_pull|].
    intros [p' r] r' [<- Hp']. cbn in Hp'. cbn [fst snd].
    eapply tracks_bind; [apply tracks_liftE|]. intros j ? <-.
    eapply tracks_bind; [apply tracks_liftE|]. intros row ? <-.
    by apply (tracks_ret (via (base_url p)) (p', row) row).
  - by intros [p' row] row' [? ?].
  - intros d. cbn. destruct (fetch _) as [r|]; [|done]. cbn.
    destruct (response_json r) as [j|]; [|done]. cbn. by destruct (desired_fields j).
Qed.


Lemma tracks_load_caches : tracks eq load_caches loaded.
Proof.
  unfold load_caches, loaded. eapply tracks_weaken.
  - eapply tracks_bind; [apply tracks_read_pairing_cache|]. intros cached ? <-.
    eapply tracks_bind; [apply tracks_liftE|]. intros ids ? <-.
    eapply tracks_bind; [apply tracks_read_table|]. intros rows ? <-.
    eapply tracks_bind; [apply tracks_liftE|]. intros rids ? <-.
    apply (tracks_ret eq). reflexivity.
  - done.
  - intros d. cbn. reflexivity.
Qed.

Lemma tracks_if {A B} (R : A → B → Prop) (P : Prop) `{Decision P}
    (m1 m2 : M A) p1 p2 :
  tracks R m1 p1 → tracks R m2 p2 →
  tracks R (if decide P then m1 else m2) (λ d, if decide P then p1 d else p2 d).
Proof. intros H1 H2. by destruct (decide P). Qed.

Lemma tracks_backfill_step st rows missing_id :
  via "https://api.opendota.com/api/" st rows →
  tracks (via "https://api.opendota.com/api/") (backfill_step st missing_id)
         (λ _, row ← match_data missing_id; Ok (rows ++ [row])).
Proof.
  destruct st as [p rows0]. intros [<- Hp]. cbn in Hp. eapply tracks_weaken.
  - eapply tracks_bind; [by apply tracks_pull_match_data|].
    intros [p' row] row' [<- Hp']. cbn in Hp'. cbn [fst snd].
    by apply (tracks_ret (via "https://api.opendota.com/api/")
                (p', rows0 ++ [row]) (rows0 ++ [row])).
  - done.
  - done.
Qed.

Lemma tracks_check_caches p c :
  base_url p = "https://api.opendota.com/api/" →
  tracks (via "https://api.opendota.com/api/") (check_caches p c) (λ _, backfilled c).
Proof.
  intros Hp. unfold check_caches, backfilled. eapply tracks_weaken.
  - eapply (tracks_bind (via "https://api.opendota.com/api/")).
    + apply tracks_if.
      * eapply tracks_bind; [apply tracks_print|]. intros [] ? _.
        by apply (tracks_foldM (via "https://api.opendota.com/api/") backfill_step
                    (λ rows missing_id, row ← match_data missing_id; Ok (rows ++ [row]))
                    _ (λ st rows x Hst, tracks_backfill_step st rows x Hst)
                    (p, known_match_data c) (known_match_data c)).
      * by apply (tracks_ret (via "https://api.opendota.com/api/")
                    (p, known_match_data c) (known_match_data c)).
    + intros st rows Hst. eapply tracks_bind.
      * apply tracks_if; [apply tracks_print | apply (tracks_ret eq ()); reflexivity].
      * intros [] ? _.
        exact (tracks_ret (via "https://api.opendota.com/api/") st rows Hst).
  - done.
  - intros d. cbn. destruct (decide (size (cached_but_no_data c) ≠ 0%nat)); cbn.
    + destruct (foldE _ _ _); cbn; [|done].
      by destruct (decide (size (known_data_ids c ∖ cached_od_ids c) ≠ 0%nat)).
    + by destruct (decide (size (known_data_ids c ∖ cached_od_ids c) ≠ 0%nat)).
Qed.

Lemma tracks_discover p season_id c :
  base_url p = "https://ld2l.gg/" →
  tracks (via "https://ld2l.gg/") (discover p season_id c)
         (λ _, discovered season_id c).
Proof.
  intros Hp. unfold discover, discovered, currently_posted_of. rewrite <- Hp.
  eapply tracks_weaken.
  - eapply tracks_bind; [apply tracks_call_pull|].
    intros [p' r] r' [<- Hp']. cbn in Hp'. cbn [fst snd].
    eapply tracks_bind; [apply tracks_liftE|]. intros posted ? <-.
    eapply tracks_bind.
    + apply tracks_if; [apply (tracks_ret eq ()); reflexivity | apply tracks_liftE].
    + intros [] ? _.
      by apply (tracks_ret (via (base_url p)) (p', posted) posted).
  - done.
  - intros d. cbn. destruct (fetch _) as [r|]; [|done]. cbn.
    destruct (scrape_ld2l_completed_matches r) as [posted|]; [|done]. cbn.
    by destruct (decide (size (cached_ld2l_ids c ∖ posted) = 0%nat)).
Qed.


Lemma tracks_new_match_step known st x ld2l_id :
  via_both st x →
  tracks via_both (new_match_step known st ld2l_id)
         (λ _, processed_step known x ld2l_id).
Proof.
  destruct st as [[[lp op] np] rows], x as [np' rows'].
  intros (Hnp & Hrows & Hlp & Hop). cbn in *. subst np' rows'.
  unfold processed_step, od_id_of. rewrite <- Hlp. eapply tracks_weaken.
  - eapply tracks_bind; [apply tracks_call_pull|].
    intros [lp' r] r' [<- Hlp']. cbn in Hlp'. cbn [fst snd].
    eapply tracks_bind; [apply tracks_liftE|]. intros od_id ? <-.
    apply tracks_if.
    + eapply tracks_bind; [by apply tracks_pull_match_data|].
      intros [op' row] row' [<- Hop']. cbn in Hop'. cbn [fst snd].
      apply (tracks_ret via_both
               (lp', op', dict_set np ld2l_id od_id, rows ++ [row])
               (dict_set np ld2l_id od_id, rows ++ [row])).
      repeat split; cbn; congruence.
    + apply (tracks_ret via_both
               (lp', op, dict_set np ld2l_id od_id, rows)
               (dict_set np ld2l_id od_id, rows)).
      repeat split; cbn; congruence.
  - done.
  - intros d. cbn. destruct (fetch _) as [r|]; [|done]. cbn.
    destruct (ld2l_to_opendota r) as [od_id|]; [|done]. cbn.
    destruct (decide (od_id ≠ 0 ∧ od_id ∉ known)); [|done].
    by destruct (match_data od_id).
Qed.

Lemma tracks_process_new lp op c rows posted :
  base_url lp = "https://ld2l.gg/" →
  base_url op = "https://api.opendota.com/api/" →
  tracks eq (process_new lp op c rows posted) (λ _, processed c rows posted).
Proof.
  intros Hlp Hop. unfold process_new, processed. eapply tracks_ext.
  - apply tracks_if.
    + eapply tracks_bind.
      * apply (tracks_foldM via_both (new_match_step (known_data_ids c))
                 (processed_step (known_data_ids c)) _
                 (λ st x i Hst, tracks_new_match_step (known_data_ids c) st x i Hst)
                 (lp, op, [], rows) ([], rows)).
        by repeat split.
      * intros [[[lp' op'] np] rows1] x (Hnp & Hrows & _).
        apply (tracks_ret eq (np, rows1) x). destruct x. cbn in *. congruence.
    + eapply tracks_bind; [apply tracks_print|]. intros [] ? _.
      exact (tracks_ret eq ([], rows) ([], rows) eq_refl).
  - intros d. cbn. destruct (decide (0 < size (posted ∖ cached_ld2l_ids c))%nat); [|done].
    by destruct (foldE _ _ _) as [[np rows1]|].
Qed.

Lemma tracks_gather_updates season_id :
  tracks eq (gather_updates season_id) (gathered season_id).
Proof.
  unfold gather_updates, gathered. eapply tracks_ext.
  - eapply tracks_bind; [apply tracks_load_caches|]. intros c ? <-.
    eapply tracks_bind; [by apply tracks_check_caches|].
    intros [op rows] rows' [<- Hop]. cbn in Hop. cbn [fst snd].
    eapply tracks_bind; [by apply tracks_discover|].
    intros [lp posted] posted' [<- Hlp]. cbn in Hlp. cbn [fst snd].
    eapply tracks_bind; [by apply tracks_process_new|].
    intros [np rows1] x Hx.
    apply (tracks_ret eq (cached_id_pairings c, np, rows1)
             (cached_id_pairings c, x.1, x.2)). by subst x.
  - intros d. cbn. destruct (loaded d) as [c|]; [|done]. cbn.
    destruct (backfilled c) as [rows|]; [|done]. cbn.
    destruct (discovered season_id c) as [posted|]; [|done]. cbn.
    by destruct (processed c rows posted) as [[np rows1]|].
Qed.

(** The whole run, on any world: its outcome and the disk it leaves are
    those [gathered] determines, and an unanswered request ends it with
    [ConnectionError]. *)
Lemma update_data_for_season_spec season_id csv_filename w :
  let res := update_data_for_season season_id csv_filename w in
  (∃ new, requests res.2 = requests w ++ new
          ∧ ∀ tu, tu ∈ new → http tu.2 = None → res.1 = Raise ConnectionError)
  ∧ match gathered season_id (storage w) with
    | Ok u => res.1 = Ok ()
              ∧ storage res.2 = persisted season_id csv_filename (storage w) u
    | Raise e => res.1 = Raise e ∧ storage res.2 = storage w
    end.
Proof.
  destruct (tracks_gather_updates season_id w) as (Hst & (new & Hreq & Hnew) & Hres).
  unfold update_data_for_season. cbn zeta. unfold mbind, ST_bind.
  destruct (gather_updates season_id w) as [[[[cached np] rows]|e] w1] eqn:Hg;
    cbn in Hst, Hreq, Hnew, Hres.
  - destruct (gathered season_id (storage w)) as [u|]; [subst u|done]. cbn.
    split.
    + exists new. split; [done|]. intros tu Hin Hnone.
      by specialize (Hnew tu Hin Hnone).
    + split; [done|]. unfold persisted. cbn [storage set_storage write_table
        write_pairing_cache fst snd pairing_cache table journal].
      by rewrite Hst, <- app_assoc.
  - destruct (gathered season_id (storage w)) as [u|]; [done|subst]. cbn.
    split; [|done]. exists new. split; [done|]. intros tu Hin Hnone.
    specialize (Hnew tu Hin Hnone). by simplify_eq.
Qed.


(** ** Stats Extractor *)

Lemma add_player_spec p a0 a1 a2 a3 a4 b0 b1 b2 b3 b4 :
  well_formed_player p →
  add_player [[a0; a1; a2; a3; a4]; [b0; b1; b2; b3; b4]] p =
  Ok (if decide (0 ≤ field_int p "player_slot" ≤ 127) then
        [[a0 + field_int p "kills"; a1 + field_int p "deaths";
          a2 + field_int p "assists"; a3 + field_int p "gold_per_min";
          a4 + field_int p "xp_per_min"]; [b0; b1; b2; b3; b4]]
      else
        [[a0; a1; a2; a3; a4];
         [b0 + field_int p "kills"; b1 + field_int p "deaths";
          b2 + field_int p "assists"; b3 + field_int p "gold_per_min";
          b4 + field_int p "xp_per_min"]]).
Proof.
  clear http lag hz set_iter container_str.
  intros [(slot & Hslot & Hrange) Hstats].
  repeat (apply Forall_cons in Hstats as [[? ?] Hstats]).
  unfold add_player, field_int. rewrite Hslot. cbn [mbind result_bind as_int].
  assert (slot `div` 128 = 0 ∧ 0 ≤ slot ≤ 127 ∨ slot `div` 128 = 1 ∧ 128 ≤ slot)
    as [[-> ?]|[-> ?]] by (Z.div_mod_to_equations; lia).
  - rewrite decide_True by done. cbn.
    repeat match goal with H : py_getitem p _ = _ |- _ => rewrite H; clear H end.
    reflexivity.
  - rewrite decide_False by lia. cbn.
    repeat match goal with H : py_getitem p _ = _ |- _ => rewrite H; clear H end.
    reflexivity.
Qed.


Lemma well_formed_player_slot p :
  well_formed_player p → 0 ≤ field_int p "player_slot" ≤ 255.
Proof. intros [(slot & Hslot & Hrange) _]. unfold field_int. by rewrite Hslot. Qed.

Lemma foldE_add_player ps :
  Forall well_formed_player ps →
  ∀ a0 a1 a2 a3 a4 b0 b1 b2 b3 b4,
    foldE add_player ps [[a0; a1; a2; a3; a4]; [b0; b1; b2; b3; b4]] =
    Ok [zip_with Z.add [a0; a1; a2; a3; a4] (team_totals 0 127 ps);
        zip_with Z.add [b0; b1; b2; b3; b4] (team_totals 128 255 ps)].
Proof.
  induction 1 as [|p ps Hp Hps IH]; intros.
  - cbn. f_equal. repeat first [reflexivity | lia | apply (f_equal2 cons)].
  - cbn [foldE]. rewrite add_player_spec by done.
    pose proof (well_formed_player_slot p Hp) as Hslot.
    unfold team_totals. cbn [fmap list_fmap stat_names]. rewrite !filter_cons.
    destruct (decide (0 ≤ field_int p "player_slot" ≤ 127)) as [Hr|Hd].
    + rewrite (decide_False (P := 128 ≤ _ ≤ 255)) by lia.
      cbn [mbind result_bind]. rewrite IH. unfold team_totals, sumZ. cbn.
      f_equal. repeat first [reflexivity | lia | apply (f_equal2 cons)].
    + rewrite (decide_True (P := 128 ≤ _ ≤ 255)) by lia.
      cbn [mbind result_bind]. rewrite IH. unfold team_totals, sumZ. cbn.
      f_equal. repeat first [reflexivity | lia | apply (f_equal2 cons)].
Qed.

(** C8. For a match record that carries [match_id], [radiant_team_id],
    [dire_team_id] and a list of players, each with [player_slot] in 0..255
    and the five statistics, [desired_fields] returns the 13-tuple made of
    the match id, the radiant team id, the five totals (kills, deaths,
    assists, gold per minute, experience per minute) over exactly the
    players in slots 0..127, the dire team id, and the five totals over
    exactly the players in slots 128..255. *)
Theorem desired_fields_partitions_by_slot m mid rid did ps :
  py_getitem m "match_id" = Ok mid →
  py_getitem m "radiant_team_id" = Ok rid →
  py_getitem m "dire_team_id" = Ok did →
  py_getitem m "players" = Ok (PList ps) →
  Forall well_formed_player ps →
  desired_fields m =
  Ok ([mid; rid] ++ (PInt <$> team_totals 0 127 ps)
        ++ [did] ++ (PInt <$> team_totals 128 255 ps)).
Proof.
  intros Hmid Hrid Hdid Hps Hwf. unfold desired_fields.
  rewrite Hmid, Hrid, Hdid, Hps. cbn [mbind result_bind py_iter].
  rewrite foldE_add_player by done. cbn [mbind result_bind].
  unfold team_totals. cbn. repeat f_equal.
Qed.


(** ** Rate-Limited Fetcher *)

Lemma pulls_spaced p starts :
  (∀ n, 0 ≤ lag n) →
  pulls p starts →
  (∀ s, head starts = Some s → prev_pull p + duration p ≤ s)
  ∧ ∀ i a b, starts !! i = Some a → starts !! S i = Some b → duration p ≤ b - a.
Proof.
  intros Hlag. induction 1 as [p|p w url r p' w' start starts Hpull Hreq _ [IHhd IHtl]].
  - split; [by intros s [=]|]. by intros i a b [=].
  - destruct (pull_spec url p w) as (start0 & w0 & Hreq0 & _ & Htime & Hres).
    destruct (Htime Hlag) as [Hstart Hend].
    destruct (http (base_url p +:+ url)) as [r0|]; [|congruence].
    rewrite Hpull in Hres. injection Hres as -> -> ->.
    rewrite Hreq0 in Hreq. apply app_inv_head in Hreq. injection Hreq as ->.
    cbn [prev_pull duration] in IHhd, IHtl. split.
    + intros s [= <-]. done.
    + intros [|i] a b Ha Hb; cbn in Ha, Hb.
      * injection Ha as <-. specialize (IHhd b). destruct starts; [done|].
        cbn in *. injection Hb as ->. specialize (IHhd eq_refl). lia.
      * by apply (IHtl i).
Qed.

(** C5. Along any sequence of successful calls of [pull] on one instance
    of interval [duration p], with a clock that never runs backwards during
    an operation, the start instants of consecutive requests are at least
    [duration p] apart. *)
Theorem pull_requests_spaced p starts i a b :
  (∀ n, 0 ≤ lag n) →
  pulls p starts →
  starts !! i = Some a → starts !! S i = Some b →
  duration p ≤ b - a.
Proof. intros Hlag Hp. by apply (pulls_spaced p starts Hlag Hp). Qed.

(** C6 (amended). A call of [pull] whose request is answered returns the
    response and leaves in [prev_pull] the time read after the answer came
    back; a call whose request raises lets [ConnectionError] through and
    leaves the instance as it was. *)
Theorem pull_records_time_of_answer url p w :
  let res := pull url (p, w) in
  match http (base_url p +:+ url) with
  | Some r => res.1 = Ok r ∧ prev_pull res.2.1 = clock res.2.2
              ∧ duration res.2.1 = duration p ∧ base_url res.2.1 = base_url p
  | None => res.1 = Raise ConnectionError ∧ res.2.1 = p
  end.
Proof.
  destruct (pull_spec url p w) as (start & w' & _ & _ & _ & Hres).
  destruct (http (base_url p +:+ url)); cbn zeta; by rewrite Hres.
Qed.


(** ** Reconciliation Engine: failures and the append-only check *)

(** C1. If a request issued during a run is not answered (the fetch
    raises), the run ends with that error and the disk is exactly as it was
    before the run: neither file is rewritten and nothing is added to the
    journal of writes. *)
Theorem fetch_failure_leaves_disk season_id csv_filename w new tu :
  let res := update_data_for_season season_id csv_filename w in
  requests res.2 = requests w ++ new →
  tu ∈ new →
  http tu.2 = None →
  res.1 = Raise ConnectionError ∧ storage res.2 = storage w.
Proof.
  intros res Hreq Hin Hnone.
  destruct (update_data_for_season_spec season_id csv_filename w)
    as [(new' & Hreq' & Hnew) Hout]. fold res in Hreq', Hnew, Hout.
  rewrite Hreq in Hreq'. apply app_inv_head in Hreq'. subst new'.
  specialize (Hnew tu Hin Hnone). split; [done|].
  destruct (gathered season_id (storage w)) as [u|e]; [|by destruct Hout].
  destruct Hout as [Hok _]. congruence.
Qed.

Lemma size_zero_subseteq (X Y : gset Z) : size (X ∖ Y) = 0%nat ↔ X ⊆ Y.
Proof.
  rewrite size_empty_iff. split.
  - intros H x Hx. destruct (decide (x ∈ Y)) as [|Hn]; [done|].
    assert (x ∈ X ∖ Y) as Hin by (apply elem_of_difference; done).
    rewrite H in Hin. by apply not_elem_of_empty in Hin.
  - intros H x. rewrite elem_of_difference. split; [|by intros ?%not_elem_of_empty].
    intros [Hx Hn]. destruct Hn. by apply H.
Qed.

(** C9. Once the caches are loaded, the missing rows are backfilled and
    the listing is scraped: if some informal id that is a key of the loaded
    pairing cache is absent from the scraped set, the run fails with the
    assertion error and the disk is left as it was; otherwise the check
    passes and the run goes on to process the new matches, ending as that
    step ends and, when it succeeds, persisting its result. *)
Theorem append_only_check season_id csv_filename w c rows posted :
  loaded (storage w) = Ok c →
  backfilled c = Ok rows →
  currently_posted_of season_id = Ok posted →
  let res := update_data_for_season season_id csv_filename w in
  ((∃ k, k ∈ cached_ld2l_ids c ∧ k ∉ posted) →
     res.1 = Raise AssertionError ∧ storage res.2 = storage w)
  ∧ ((∀ k, k ∈ cached_ld2l_ids c → k ∈ posted) →
       match processed c rows posted with
       | Ok u => res.1 = Ok ()
                 ∧ storage res.2 = persisted season_id csv_filename (storage w)
                                     (cached_id_pairings c, u.1, u.2)
       | Raise e => res.1 = Raise e ∧ storage res.2 = storage w
       end).
Proof.
  intros Hc Hrows Hposted res.
  destruct (update_data_for_season_spec season_id csv_filename w) as [_ Hout].
  fold res in Hout. unfold gathered, discovered in Hout.
  rewrite Hc in Hout. cbn [mbind result_bind] in Hout.
  rewrite Hrows in Hout. cbn [mbind result_bind] in Hout.
  rewrite Hposted in Hout. cbn [mbind result_bind] in Hout.
  destruct (decide (size (cached_ld2l_ids c ∖ posted) = 0%nat)) as [Hsz|Hsz];
    rewrite size_zero_subseteq in Hsz; cbn [mbind result_bind] in Hout.
  - split; [intros (k & Hk & Hnk); destruct Hnk; by apply Hsz|]. intros _.
    by destruct (processed c rows posted) as [[np rows1]|e].
  - split; [done|]. intros Hsub. destruct Hsz. intros k Hk. by apply Hsub.
Qed.

Lemma json_dump_loaded (cached : list (string * Z)) :
  json_dump (merged_pairings cached []) = cached.
Proof.
  unfold json_dump, merged_pairings, dict_union. cbn.
  rewrite <- list_fmap_compose. rewrite <- (list_fmap_id cached) at 2.
  apply list_fmap_ext. by intros i [k v] _.
Qed.

Lemma csv_text_loaded (rows : list (list string)) :
  fmap (M:=list) csv_text <$> (fmap (M:=list) PStr <$> rows) = rows.
Proof.
  rewrite <- list_fmap_compose. rewrite <- (list_fmap_id rows) at 2.
  apply list_fmap_ext. intros i row _. cbn. rewrite <- list_fmap_compose.
  rewrite <- (list_fmap_id row) at 2. by apply list_fmap_ext.
Qed.

(** C4 (amended). When the caches load, no row is missing, the listing
    shows no match that is not cached and the append-only check passes, the
    run ends normally and writes both files, the pairing cache first: the
    pairing cache holds the loaded pairings unchanged (the empty object when
    the file was absent) and the table the header followed by the loaded rows
    unchanged. *)
Theorem no_new_data_rewrites_caches season_id csv_filename w c posted :
  loaded (storage w) = Ok c →
  cached_but_no_data c = ∅ →
  currently_posted_of season_id = Ok posted →
  posted ∖ cached_ld2l_ids c = ∅ →
  cached_ld2l_ids c ∖ posted = ∅ →
  let res := update_data_for_season season_id csv_filename w in
  res.1 = Ok ()
  ∧ pairing_cache (storage res.2) = Some (loaded_pairings (storage w))
  ∧ table (storage res.2)
    = Some (header :: drop 1 (default [] (table (storage w))))
  ∧ journal (storage res.2)
    = journal (storage w)
        ++ ["ld2l_match_id_mapping_s" +:+ py_str season_id +:+ ".json";
            default ("selected_data" +:+ py_str season_id +:+ ".csv") csv_filename].
Proof.
  intros Hc Hbf Hposted Hnew Hold res.
  destruct (update_data_for_season_spec season_id csv_filename w) as [_ Hout].
  fold res in Hout. unfold gathered, discovered, backfilled, processed in Hout.
  rewrite Hc in Hout. cbn [mbind result_bind] in Hout.
  rewrite Hbf, size_empty in Hout. rewrite decide_False in Hout by (by intros ?).
  cbn [mbind result_bind] in Hout. rewrite Hposted in Hout.
  cbn [mbind result_bind] in Hout. rewrite Hold, size_empty in Hout.
  rewrite decide_True in Hout by done. cbn [mbind result_bind] in Hout.
  rewrite Hnew, size_empty in Hout. rewrite decide_False in Hout by lia.
  cbn [mbind result_bind] in Hout. destruct Hout as [Hres Hst].
  split; [done|]. rewrite Hst. unfold persisted. cbn [pairing_cache table journal fst snd].
  unfold loaded, int_keys in Hc.
  destruct (mapE py_int _); [|done]. cbn in Hc. destruct (mapE row_id _); [|done].
  injection Hc as <-. cbn [cached_id_pairings known_match_data].
  rewrite json_dump_loaded. split; [done|]. split; [|done].
  unfold loaded_rows. destruct (table (storage w)) as [rows0|]; cbn; [|done].
  by rewrite csv_text_loaded.
Qed.


(** ** [int(str(z)) == z] *)

Lemma is_digit_not_space c : is_digit c = true → is_space c = false.
Proof. destruct c as [[] [] [] [] [] [] [] []]; by vm_compute. Qed.

Lemma is_digit_not_sign c :
  is_digit c = true →
  Ascii.eqb c "-" = false ∧ Ascii.eqb c "+" = false ∧ is_underscore c = false.
Proof. destruct c as [[] [] [] [] [] [] [] []]; by vm_compute. Qed.

Lemma lstrip_head c l : is_space c = false → lstrip (c :: l) = c :: l.
Proof. intros H. cbn. by rewrite H. Qed.

Lemma strip_no_space c l :
  is_space c = false → Forall (λ c, is_space c = false) l → strip (c :: l) = c :: l.
Proof.
  intros Hc Hl. unfold strip. rewrite lstrip_head by done.
  assert (Forall (λ c, is_space c = false) (rev (c :: l))) as Hrev
    by (apply List.Forall_rev; by constructor).
  destruct (rev (c :: l)) as [|c' l'] eqn:Heq.
  - apply (f_equal (@rev ascii)) in Heq. rewrite rev_involutive in Heq. done.
  - apply Forall_cons in Hrev as [Hc' _]. rewrite lstrip_head by done.
    by rewrite <- Heq, rev_involutive.
Qed.

Lemma digits_of_uint d :
  Forall (λ c, is_digit c = true) (list_ascii_of_string (NilEmpty.string_of_uint d)).
Proof. induction d; cbn; by constructor. Qed.

Lemma valid_body_digits l b :
  Forall (λ c, is_digit c = true) l → valid_body b l = match l with [] => b | _ => true end.
Proof.
  intros H. revert b. induction H as [|c l Hc Hl IH]; intros b; [done|].
  cbn. rewrite Hc, IH. by destruct l.
Qed.

Lemma filter_digits l :
  Forall (λ c, is_digit c = true) l → filter (λ c, is_underscore c = false) l = l.
Proof.
  induction 1 as [|c l Hc Hl IH]; [done|]. rewrite filter_cons, IH.
  apply is_digit_not_sign in Hc as (_ & _ & Hc). by rewrite decide_True.
Qed.

Lemma body_value_uint d :
  d ≠ Decimal.Nil →
  body_value (list_ascii_of_string (NilEmpty.string_of_uint d)) = Ok (Z.of_uint d).
Proof.
  intros Hd. unfold body_value. pose proof (digits_of_uint d) as Hdig.
  rewrite valid_body_digits, filter_digits by done.
  rewrite string_of_list_ascii_of_string, NilEmpty.usu.
  destruct (list_ascii_of_string _) eqn:Hl; [|done].
  destruct d; cbn in Hl; congruence.
Qed.

Lemma py_int_digits d :
  d ≠ Decimal.Nil →
  py_int (NilEmpty.string_of_uint d) = Ok (Z.of_uint d)
  ∧ py_int (String "-" (NilEmpty.string_of_uint d)) = Ok (- Z.of_uint d).
Proof.
  intros Hd. pose proof (digits_of_uint d) as Hdig.
  pose proof (body_value_uint d Hd) as Hval. unfold py_int.
  assert (Forall (λ c, is_space c = false)
            (list_ascii_of_string (NilEmpty.string_of_uint d))) as Hsp
    by (eapply Forall_impl; [done|]; apply is_digit_not_space).
  split.
  - destruct (list_ascii_of_string _) as [|c l] eqn:Hl; [by destruct d|].
    apply Forall_cons in Hsp as [Hc Hsp]. rewrite strip_no_space by done.
    apply Forall_cons in Hdig as [Hcd _].
    apply is_digit_not_sign in Hcd as (-> & -> & _). done.
  - cbn [list_ascii_of_string]. rewrite strip_no_space by done. cbn.
    by rewrite Hval.
Qed.

Lemma py_int_py_str z : py_int (py_str z) = Ok z.
Proof.
  unfold py_str. destruct z as [|p|p]; [done| |]; cbn [Z.to_int NilZero.string_of_int].
  - pose proof (Unsigned.to_uint_nonnil p) as Hnn.
    destruct (py_int_digits (Pos.to_uint p) Hnn) as [H _].
    unfold NilZero.string_of_uint. destruct (Pos.to_uint p) eqn:Hp; try done;
      rewrite H; f_equal; rewrite <- Hp;
      change (Z.of_int (Z.to_int (Z.pos p)) = Z.pos p); apply DecimalZ.of_to.
  - pose proof (Unsigned.to_uint_nonnil p) as Hnn.
    destruct (py_int_digits (Pos.to_uint p) Hnn) as [_ H].
    unfold NilZero.string_of_uint. destruct (Pos.to_uint p) eqn:Hp; try done;
      rewrite H; f_equal; rewrite <- Hp;
      change (Z.of_int (Z.to_int (Z.neg p)) = Z.neg p); apply DecimalZ.of_to.
Qed.


(** ** Dicts *)

Lemma dict_set_fresh {K V} `{EqDecision K} (d : list (K * V)) k v :
  k ∉ d.*1 → dict_set d k v = d ++ [(k, v)].
Proof.
  induction d as [|[k' v'] d IH]; intros Hk; [done|]. cbn in *.
  apply not_elem_of_cons in Hk as [Hne Hk]. rewrite decide_False by done.
  by rewrite IH.
Qed.

Lemma dict_set_keys {K V} `{EqDecision K} (d : list (K * V)) k v :
  (dict_set d k v).*1 = if decide (k ∈ d.*1) then d.*1 else d.*1 ++ [k].
Proof.
  induction d as [|[k' v'] d IH]; cbn.
  - rewrite decide_False; [done|]. apply not_elem_of_nil.
  - destruct (decide (k = k')) as [->|Hne]; cbn.
    + rewrite decide_True; [done|]. apply list_elem_of_here.
    + rewrite IH. destruct (decide (k ∈ d.*1)) as [Hin|Hnin].
      * rewrite decide_True; [done|]. by apply list_elem_of_further.
      * rewrite decide_False; [done|]. by intros [?|?]%elem_of_cons.
Qed.

Lemma dict_set_NoDup {K V} `{EqDecision K} (d : list (K * V)) k v :
  NoDup d.*1 → NoDup (dict_set d k v).*1.
Proof.
  intros Hd. rewrite dict_set_keys. destruct (decide (k ∈ d.*1)); [done|].
  apply NoDup_app. split; [done|]. split; [|apply NoDup_singleton].
  intros x Hx ->%list_elem_of_singleton. done.
Qed.

Lemma dict_union_NoDup {K V} `{EqDecision K} (a b : list (K * V)) :
  NoDup a.*1 → NoDup (dict_union a b).*1.
Proof.
  revert a. induction b as [|[k v] b IH]; intros a Ha; [done|].
  cbn. apply IH. by apply dict_set_NoDup.
Qed.

Lemma dict_union_keys {K V} `{EqDecision K} (a b : list (K * V)) x :
  x ∈ (dict_union a b).*1 ↔ x ∈ a.*1 ∨ x ∈ b.*1.
Proof.
  revert a. induction b as [|[k v] b IH]; intros a; cbn.
  - split; [by left|]. intros [?|Hn]; [done|]. by apply elem_of_nil in Hn.
  - unfold dict_union in IH. rewrite IH, dict_set_keys.
    destruct (decide (k ∈ a.*1)) as [Hin|Hnin].
    + rewrite elem_of_cons. split; [tauto|]. intros [?|[->|?]]; tauto.
    + rewrite elem_of_app, list_elem_of_singleton, elem_of_cons. tauto.
Qed.

Lemma dict_union_fresh {K V} `{EqDecision K} (a b : list (K * V)) :
  NoDup b.*1 → (∀ k, k ∈ b.*1 → k ∉ a.*1) → dict_union a b = a ++ b.
Proof.
  revert a. induction b as [|[k v] b IH]; intros a Hb Hdisj; cbn.
  - by rewrite app_nil_r.
  - cbn in Hb. apply NoDup_cons in Hb as [Hk Hb].
    rewrite dict_set_fresh by (apply Hdisj; apply list_elem_of_here).
    unfold dict_union in IH. rewrite IH; [by rewrite <- app_assoc|done|].
    intros k' Hk'. rewrite fmap_app, elem_of_app. cbn.
    intros [Hin| ->%list_elem_of_singleton]; [|done].
    by apply (Hdisj k'); [apply list_elem_of_further|].
Qed.

Lemma json_load_NoDup ms : NoDup (json_load ms).*1.
Proof. apply dict_union_NoDup. constructor. Qed.

Lemma json_load_id ms : NoDup ms.*1 → json_load ms = ms.
Proof.
  intros Hms. unfold json_load. rewrite dict_union_fresh; [done|done|].
  intros k _. apply not_elem_of_nil.
Qed.

Lemma dict_get_elem_of {K V} `{EqDecision K} (d : list (K * V)) k v :
  NoDup d.*1 → (k, v) ∈ d → dict_get d k = Some v.
Proof.
  induction d as [|[k' v'] d IH]; intros Hd Hin; [by apply elem_of_nil in Hin|].
  cbn in *. apply NoDup_cons in Hd as [Hk' Hd].
  apply elem_of_cons in Hin as [Heq|Hin].
  - injection Heq as -> ->. by rewrite decide_True.
  - rewrite decide_False; [by apply IH|]. intros ->. apply Hk'.
    apply list_elem_of_fmap. by exists (k', v).
Qed.

Lemma dict_get_Some {K V} `{EqDecision K} (d : list (K * V)) k v :
  dict_get d k = Some v → (k, v) ∈ d.
Proof.
  induction d as [|[k' v'] d IH]; [done|]. cbn.
  destruct (decide (k = k')) as [->|Hne].
  - intros [= ->]. apply list_elem_of_here.
  - intros H. apply list_elem_of_further. by apply IH.
Qed.


(** ** Loops *)

Lemma mapE_Ok {A B} (f : A → result B) l l' :
  mapE f l = Ok l' ↔ Forall2 (λ x y, f x = Ok y) l l'.
Proof.
  revert l'. induction l as [|x l IH]; intros l'; cbn.
  - split; [intros [= <-]; constructor|]. by intros ->%Forall2_nil_inv_l.
  - destruct (f x) as [y|e] eqn:Hfx; cbn.
    + destruct (mapE f l) as [ys|e] eqn:Hl; cbn.
      * split.
        -- intros [= <-]. constructor; [done|]. by apply IH.
        -- intros (y' & ys' & Hy & Hys & ->)%Forall2_cons_inv_l.
           apply IH in Hys. congruence.
      * split; [done|].
        intros (y' & ys' & Hy & Hys & ->)%Forall2_cons_inv_l.
        apply IH in Hys. done.
    + split; [done|].
      intros (y' & ys' & Hy & Hys & ->)%Forall2_cons_inv_l. congruence.
Qed.

Lemma mapE_app {A B} (f : A → result B) l1 l2 :
  mapE f (l1 ++ l2) = (a ← mapE f l1; b ← mapE f l2; Ok (a ++ b)).
Proof.
  induction l1 as [|x l1 IH]; cbn.
  - by destruct (mapE f l2).
  - destruct (f x); cbn; [|done]. rewrite IH.
    destruct (mapE f l1); cbn; [|done]. by destruct (mapE f l2).
Qed.

Lemma mapE_ext {A B} (f g : A → result B) l :
  (∀ x, x ∈ l → f x = g x) → mapE f l = mapE g l.
Proof.
  induction l as [|x l IH]; intros H; [done|]. cbn.
  rewrite H by apply list_elem_of_here. destruct (g x); cbn; [|done].
  rewrite IH; [done|]. intros y Hy. apply H. by apply list_elem_of_further.
Qed.

Lemma foldE_backfill ids rows :
  foldE (λ rows missing_id, row ← match_data missing_id; Ok (rows ++ [row])) ids rows
  = (new ← mapE match_data ids; Ok (rows ++ new)).
Proof.
  revert rows. induction ids as [|x ids IH]; intros rows; cbn.
  - by rewrite app_nil_r.
  - destruct (match_data x) as [row|e]; cbn; [|done]. rewrite IH.
    destruct (mapE match_data ids); cbn; [|done]. by rewrite <- app_assoc.
Qed.

Lemma foldE_processed_step known ids np rows np' rows' :
  foldE (processed_step known) ids (np, rows) = Ok (np', rows') →
  ∃ ods new,
    mapE od_id_of ids = Ok ods
    ∧ mapE match_data (filter (λ v, v ≠ 0 ∧ v ∉ known) ods) = Ok new
    ∧ np' = dict_union np (zip ids ods)
    ∧ rows' = rows ++ new.
Proof.
  revert np rows. induction ids as [|k ids IH]; intros np rows; cbn [foldE mapE].
  - intros [= <- <-]. exists [], []. by rewrite app_nil_r.
  - destruct (processed_step known (np, rows) k) as [[np1 rows1]|e] eqn:Hstep;
      cbn [mbind result_bind]; [|done].
    intros (ods & new & Hods & Hnew & -> & ->)%IH. rewrite Hods.
    unfold processed_step in Hstep. destruct (od_id_of k) as [v|e]; [|done].
    cbn [mbind result_bind fst snd] in *.
    destruct (decide (v ≠ 0 ∧ v ∉ known)) as [Hv|Hv].
    + destruct (match_data v) as [row|e] eqn:Hrow; [|done].
      injection Hstep as <- <-. exists (v :: ods), (row :: new).
      rewrite filter_cons. rewrite decide_True by exact Hv.
      cbn [mapE mbind result_bind]. rewrite Hrow, Hnew. cbn.
      by rewrite <- app_assoc.
    + injection Hstep as <- <-. exists (v :: ods), new.
      rewrite filter_cons. by rewrite decide_False by exact Hv.
Qed.


(** ** Anatomy of a successful run *)

Lemma set_iter_empty : visits_each_once → set_iter ∅ = [].
Proof.
  intros Hv. apply Permutation_nil_r. by rewrite (Hv ∅), elements_empty.
Qed.

Lemma set_iter_NoDup s : visits_each_once → NoDup (set_iter s).
Proof. intros Hv. rewrite (Hv s). apply NoDup_elements. Qed.

Lemma elem_of_set_iter s x : visits_each_once → x ∈ set_iter s ↔ x ∈ s.
Proof. intros Hv. by rewrite (Hv s), elem_of_elements. Qed.

Lemma size_zero_empty (s : gset Z) : size s = 0%nat → s = ∅.
Proof. intros H. apply leibniz_equiv. by apply size_empty_iff. Qed.

Lemma backfilled_eq c :
  visits_each_once →
  backfilled c = (new ← mapE match_data (set_iter (cached_but_no_data c));
                  Ok (known_match_data c ++ new)).
Proof.
  intros Hv. unfold backfilled.
  destruct (decide (size (cached_but_no_data c) ≠ 0%nat)) as [Hsz|Hsz].
  - apply foldE_backfill.
  - rewrite (size_zero_empty (cached_but_no_data c)) by lia.
    rewrite set_iter_empty by done. cbn. by rewrite app_nil_r.
Qed.

Lemma processed_eq c rows posted :
  visits_each_once →
  processed c rows posted
  = foldE (processed_step (known_data_ids c))
          (set_iter (posted ∖ cached_ld2l_ids c)) ([], rows).
Proof.
  intros Hv. unfold processed.
  destruct (decide (0 < size (posted ∖ cached_ld2l_ids c))%nat) as [Hsz|Hsz]; [done|].
  rewrite (size_zero_empty (posted ∖ cached_ld2l_ids c)) by lia.
  by rewrite set_iter_empty.
Qed.

Lemma dict_union_zip (ids ods : list Z) :
  NoDup ids → length ids = length ods →
  dict_union [] (zip ids ods) = zip ids ods.
Proof.
  intros Hnd Hlen. rewrite dict_union_fresh; [done| |].
  - rewrite fst_zip by lia. done.
  - intros k _. apply not_elem_of_nil.
Qed.

Lemma gathered_Ok season_id d cached np rows :
  visits_each_once →
  gathered season_id d = Ok (cached, np, rows) →
  ∃ c posted ods bf new,
    loaded d = Ok c ∧ cached = cached_id_pairings c
    ∧ currently_posted_of season_id = Ok posted
    ∧ cached_ld2l_ids c ⊆ posted
    ∧ mapE match_data (set_iter (cached_but_no_data c)) = Ok bf
    ∧ mapE od_id_of (set_iter (posted ∖ cached_ld2l_ids c)) = Ok ods
    ∧ mapE match_data (filter (λ v, v ≠ 0 ∧ v ∉ known_data_ids c) ods) = Ok new
    ∧ np = zip (set_iter (posted ∖ cached_ld2l_ids c)) ods
    ∧ rows = known_match_data c ++ bf ++ new.
Proof.
  intros Hv. unfold gathered. destruct (loaded d) as [c|] eqn:Hc; [|done].
  cbn [mbind result_bind]. rewrite backfilled_eq by done.
  destruct (mapE match_data (set_iter (cached_but_no_data c))) as [bf|] eqn:Hbf;
    [|done]. cbn [mbind result_bind]. unfold discovered.
  destruct (currently_posted_of season_id) as [posted|] eqn:Hposted; [|done].
  cbn [mbind result_bind].
  destruct (decide (size (cached_ld2l_ids c ∖ posted) = 0%nat)) as [Hsz|]; [|done].
  apply size_zero_subseteq in Hsz. cbn [mbind result_bind].
  rewrite processed_eq by done.
  destruct (foldE _ _ _) as [[np1 rows1]|] eqn:Hfold; [|done].
  cbn [mbind result_bind]. intros [= <- <- <-].
  apply foldE_processed_step in Hfold as (ods & new & Hods & Hnew & -> & ->).
  exists c, posted, ods, bf, new. repeat (split; [done|]). split.
  - apply dict_union_zip; [by apply set_iter_NoDup|].
    apply mapE_Ok in Hods. by apply Forall2_length in Hods.
  - by rewrite <- app_assoc.
Qed.


Lemma loaded_Ok d c :
  loaded d = Ok c →
  cached_id_pairings c = loaded_pairings d
  ∧ int_keys (loaded_pairings d) = Ok (cached_ld2l_ids c)
  ∧ known_match_data c = loaded_rows d
  ∧ ∃ ids, mapE row_id (loaded_rows d) = Ok ids ∧ known_data_ids c = list_to_set ids.
Proof.
  unfold loaded. destruct (int_keys (loaded_pairings d)) as [s|] eqn:Hs; [|done].
  cbn [mbind result_bind].
  destruct (mapE row_id (loaded_rows d)) as [ids|] eqn:Hids; [|done].
  cbn [mbind result_bind]. intros [= <-]. cbn. repeat (split; [done|]). by exists ids.
Qed.

Lemma loaded_pairings_NoDup d : NoDup (loaded_pairings d).*1.
Proof.
  unfold loaded_pairings. destruct (pairing_cache d); [apply json_load_NoDup|constructor].
Qed.

Lemma int_keys_elem_of (d : list (string * Z)) s k :
  int_keys d = Ok s → k ∈ d.*1 → ∃ z, py_int k = Ok z ∧ z ∈ s.
Proof.
  unfold int_keys, dict_keys. destruct (mapE py_int d.*1) as [l|] eqn:Hl; [|done].
  cbn. intros [= <-] Hk. apply mapE_Ok in Hl.
  apply list_elem_of_lookup in Hk as [i Hi].
  destruct (Forall2_lookup_l _ _ _ _ _ Hl Hi) as (z & Hz & Hpz).
  exists z. split; [done|]. apply elem_of_list_to_set.
  apply list_elem_of_lookup. eauto.
Qed.

#[local] Instance py_str_inj : Inj (=) (=) py_str.
Proof.
  intros a b Hab. pose proof (py_int_py_str a) as Ha. rewrite Hab, py_int_py_str in Ha.
  congruence.
Qed.

Lemma keys_prod_map {A B C} (f : A → C) (l : list (A * B)) :
  (prod_map f id <$> l).*1 = f <$> l.*1.
Proof. induction l as [|[a b] l IH]; [done|]. cbn. by rewrite IH. Qed.

(** What line 157 writes: the loaded members in their order, then one
    member per new pairing, keyed by the decimal literal of its informal id;
    no key occurs twice. *)
Lemma written_pairings d c posted ods :
  visits_each_once →
  loaded d = Ok c →
  length (set_iter (posted ∖ cached_ld2l_ids c)) = length ods →
  let ids := set_iter (posted ∖ cached_ld2l_ids c) in
  let written := json_dump (merged_pairings (cached_id_pairings c) (zip ids ods)) in
  written = cached_id_pairings c ++ (prod_map py_str id <$> zip ids ods)
  ∧ written.*1 = (cached_id_pairings c).*1 ++ (py_str <$> ids)
  ∧ NoDup written.*1.
Proof.
  intros Hv Hc Hlen ids written.
  destruct (loaded_Ok d c Hc) as (Hcached & Hkeys & _).
  assert (NoDup ids) as Hids by by apply set_iter_NoDup.
  assert (written = cached_id_pairings c ++ (prod_map py_str id <$> zip ids ods)) as Hw.
  { unfold written, merged_pairings. rewrite dict_union_fresh.
    - unfold json_dump. rewrite fmap_app, <- !list_fmap_compose. f_equal.
      rewrite <- (list_fmap_id (cached_id_pairings c)) at 2.
      apply list_fmap_ext. by intros i [k v] _.
    - rewrite keys_prod_map, fst_zip by (fold ids in Hlen; lia).
      apply NoDup_fmap_2; [|done]. by intros a b [= ->].
    - intros k. rewrite !keys_prod_map.
      by intros (a & -> & _)%list_elem_of_fmap (a' & [=] & _)%list_elem_of_fmap. }
  split; [done|].
  assert (written.*1 = (cached_id_pairings c).*1 ++ (py_str <$> ids)) as Hk.
  { rewrite Hw, fmap_app. f_equal.
    by rewrite keys_prod_map, fst_zip by (fold ids in Hlen; lia). }
  split; [done|]. rewrite Hk. apply NoDup_app. split; [|split].
  - rewrite Hcached. apply loaded_pairings_NoDup.
  - intros s Hs (k & -> & Hkin)%list_elem_of_fmap.
    rewrite Hcached in Hs.
    destruct (int_keys_elem_of _ _ _ Hkeys Hs) as (z & Hz & Hzin).
    rewrite py_int_py_str in Hz. injection Hz as <-.
    apply elem_of_set_iter in Hkin; [|done].
    by apply elem_of_difference in Hkin as [_ Hn].
  - apply NoDup_fmap_2; [apply _|done].
Qed.


(** ** Reconciliation Engine: the pairing cache *)

Lemma update_Ok_gathered season_id csv_filename w :
  (update_data_for_season season_id csv_filename w).1 = Ok () →
  ∃ u, gathered season_id (storage w) = Ok u
       ∧ storage (update_data_for_season season_id csv_filename w).2
         = persisted season_id csv_filename (storage w) u.
Proof.
  intros Hok. destruct (update_data_for_season_spec season_id csv_filename w) as [_ H].
  destruct (gathered season_id (storage w)) as [u|e].
  - exists u. by destruct H.
  - destruct H as [H _]. congruence.
Qed.

(** C7. In a completed run, the pairing cache written at the end is the
    loaded one followed by the entries added by the run: every entry loaded
    is still there, and reading the file back gives each loaded key the
    value it had. *)
Theorem persist_keeps_loaded_pairings season_id csv_filename w :
  visits_each_once →
  let res := update_data_for_season season_id csv_filename w in
  res.1 = Ok () →
  ∃ added,
    pairing_cache (storage res.2) = Some (loaded_pairings (storage w) ++ added)
    ∧ ∀ s v, dict_get (loaded_pairings (storage w)) s = Some v →
             dict_get (json_load (loaded_pairings (storage w) ++ added)) s = Some v.
Proof.
  intros Hv res Hok.
  destruct (update_Ok_gathered season_id csv_filename w Hok) as ([[cached np] rows] & Hg & Hst).
  fold res in Hst.
  destruct (gathered_Ok _ _ _ _ _ Hv Hg)
    as (c & posted & ods & bf & new & Hc & -> & Hposted & Hsub & Hbf & Hods & Hnew & -> & ->).
  apply mapE_Ok in Hods. apply Forall2_length in Hods.
  destruct (written_pairings _ c posted ods Hv Hc Hods) as (Hw & Hk & Hnd).
  destruct (loaded_Ok _ c Hc) as (Hcached & _).
  exists (prod_map py_str id <$> zip (set_iter (posted ∖ cached_ld2l_ids c)) ods).
  rewrite Hst. unfold persisted. cbn [pairing_cache fst snd].
  rewrite Hw, Hcached. split; [done|]. intros s v Hsv.
  rewrite Hw, Hcached in Hnd. rewrite json_load_id by done.
  apply dict_get_elem_of; [done|]. apply elem_of_app. left. by apply dict_get_Some.
Qed.


Lemma mapE_py_int_py_str ids : mapE py_int (py_str <$> ids) = Ok ids.
Proof.
  induction ids as [|k ids IH]; [done|]. cbn. by rewrite py_int_py_str, IH.
Qed.

Lemma list_to_set_set_iter (s : gset Z) :
  visits_each_once → list_to_set (set_iter s) = s.
Proof.
  intros Hv. apply set_eq. intros x.
  by rewrite elem_of_list_to_set, elem_of_set_iter.
Qed.

(** C10. In a completed run the dict handed to [json.dump] holds the
    loaded pairings under [str] keys and the new ones under [int] keys; in
    the file no two members share a key, and loading it back and parsing its
    keys with [int] gives exactly the informal ids loaded before together
    with the new ones, each loaded key with the value it had and each new
    informal id with the Stats Match ID the mapper gave it. *)
Theorem pairing_cache_round_trip season_id csv_filename w :
  visits_each_once →
  let res := update_data_for_season season_id csv_filename w in
  res.1 = Ok () →
  ∃ c posted written,
    loaded (storage w) = Ok c
    ∧ currently_posted_of season_id = Ok posted
    ∧ pairing_cache (storage res.2) = Some written
    ∧ NoDup written.*1
    ∧ int_keys (json_load written)
      = Ok (cached_ld2l_ids c ∪ (posted ∖ cached_ld2l_ids c))
    ∧ (∀ s v, dict_get (cached_id_pairings c) s = Some v →
              dict_get (json_load written) s = Some v)
    ∧ (∀ k, k ∈ posted ∖ cached_ld2l_ids c →
            ∃ v, od_id_of k = Ok v
                 ∧ dict_get (json_load written) (py_str k) = Some v).
Proof.
  intros Hv res Hok.
  destruct (update_Ok_gathered season_id csv_filename w Hok) as ([[cached np] rows] & Hg & Hst).
  fold res in Hst.
  destruct (gathered_Ok _ _ _ _ _ Hv Hg)
    as (c & posted & ods & bf & new & Hc & -> & Hposted & Hsub & Hbf & Hods & Hnew & -> & ->).
  apply mapE_Ok in Hods. pose proof (Forall2_length _ _ _ Hods) as Hlen.
  destruct (written_pairings _ c posted ods Hv Hc Hlen) as (Hw & Hk & Hnd).
  destruct (loaded_Ok _ c Hc) as (Hcached & Hkeys & _).
  set (ids := set_iter (posted ∖ cached_ld2l_ids c)) in *.
  set (written := json_dump (merged_pairings (cached_id_pairings c) (zip ids ods))) in *.
  exists c, posted, written. split; [done|]. split; [done|].
  split; [by rewrite Hst|]. split; [done|]. rewrite json_load_id by done.
  split; [|split].
  - unfold int_keys, dict_keys in *. rewrite Hk, mapE_app.
    rewrite <- Hcached in Hkeys.
    destruct (mapE py_int (cached_id_pairings c).*1) as [l|]; [|done].
    cbn in Hkeys. injection Hkeys as Hl. cbn [mbind result_bind].
    rewrite mapE_py_int_py_str. cbn [mbind result_bind]. f_equal.
    rewrite list_to_set_app_L, Hl. unfold ids. by rewrite list_to_set_set_iter.
  - intros s v Hsv. apply dict_get_elem_of; [done|]. rewrite Hw.
    apply elem_of_app. left. by apply dict_get_Some.
  - intros k Hkin. apply (elem_of_set_iter _ _ Hv) in Hkin. fold ids in Hkin.
    apply list_elem_of_lookup in Hkin as [i Hi].
    destruct (Forall2_lookup_l _ _ _ _ _ Hods Hi) as (v & Hvi & Hod).
    exists v. split; [done|]. apply dict_get_elem_of; [done|]. rewrite Hw.
    apply elem_of_app. right. apply list_elem_of_fmap. exists (k, v). split; [done|].
    apply list_elem_of_lookup. exists i. by apply lookup_zip_Some.
Qed.


(** ** Reconciliation Engine: the table *)

Lemma desired_fields_head j row :
  desired_fields j = Ok row →
  ∃ mid rest, py_getitem j "match_id" = Ok mid ∧ row = mid :: rest.
Proof.
  unfold desired_fields. destruct (py_getitem j "match_id") as [mid|]; [|done].
  cbn [mbind result_bind]. destruct (py_getitem j "radiant_team_id"); [|done].
  cbn [mbind result_bind]. destruct (py_getitem j "dire_team_id"); [|done].
  cbn [mbind result_bind]. destruct (py_getitem j "players") as [ps|]; [|done].
  cbn [mbind result_bind]. destruct (py_iter ps); [|done].
  cbn [mbind result_bind]. destruct (foldE _ _ _); [|done].
  cbn [mbind result_bind]. intros [= <-]. eauto.
Qed.

Lemma match_data_head od_id row :
  stats_source_faithful →
  match_data od_id = Ok row → ∃ rest, row = PInt od_id :: rest.
Proof.
  intros Hf. unfold match_data, fetch.
  destruct (http _) as [r|] eqn:Hhttp; [|done]. cbn [mbind result_bind].
  destruct r as [| |j|]; try done. cbn [mbind result_bind response_json].
  intros (mid & rest & Hmid & ->)%desired_fields_head.
  rewrite (Hf od_id j Hhttp) in Hmid. injection Hmid as <-. eauto.
Qed.

Lemma reread_loaded (row : list string) : reread (PStr <$> row) = PStr <$> row.
Proof.
  unfold reread. f_equal. rewrite <- list_fmap_compose.
  rewrite <- (list_fmap_id row) at 2. by apply list_fmap_ext.
Qed.

Lemma row_id_reread_match_data od_id row :
  stats_source_faithful →
  match_data od_id = Ok row → row_id (reread row) = Ok od_id.
Proof.
  intros Hf [rest ->]%match_data_head; [|done]. cbn. apply py_int_py_str.
Qed.

Lemma mapE_row_id_reread vs rows :
  stats_source_faithful →
  Forall2 (λ v row, match_data v = Ok row) vs rows →
  mapE row_id (reread <$> rows) = Ok vs.
Proof.
  intros Hf. induction 1 as [|v row vs rows Hrow _ IH]; [done|]. cbn [fmap list_fmap mapE].
  rewrite (row_id_reread_match_data v row Hf Hrow). cbn [mbind result_bind].
  change (list_fmap _ _ reread rows) with (reread <$> rows). by rewrite IH.
Qed.

Lemma mapE_row_id_reread_loaded d ids :
  mapE row_id (loaded_rows d) = Ok ids →
  mapE row_id (reread <$> loaded_rows d) = Ok ids.
Proof.
  intros H. rewrite <- H. f_equal. unfold loaded_rows.
  destruct (table d) as [rows|]; [|done].
  rewrite <- list_fmap_compose. apply list_fmap_ext. intros i row _. cbn.
  apply reread_loaded.
Qed.

Lemma filter_ods_NoDup (Q : Z → Prop) `{∀ v, Decision (Q v)} ids ods :
  mapper_injective →
  NoDup ids →
  Forall2 (λ k v, od_id_of k = Ok v) ids ods →
  NoDup (filter (λ v, v ≠ 0 ∧ Q v) ods).
Proof.
  intros Hinj Hnd Hods. induction Hods as [|k v ids ods Hkv Hods IH]; [constructor|].
  apply NoDup_cons in Hnd as [Hk Hnd]. rewrite filter_cons.
  destruct (decide (v ≠ 0 ∧ Q v)) as [[Hv0 _]|_]; [|by apply IH].
  apply NoDup_cons. split; [|by apply IH].
  intros [_ Hin]%list_elem_of_filter. apply list_elem_of_lookup in Hin as [i Hi].
  destruct (Forall2_lookup_r _ _ _ _ _ Hods Hi) as (k' & Hk' & Hk'v).
  rewrite (Hinj k k' v Hkv Hk'v Hv0) in Hk. apply Hk.
  apply list_elem_of_lookup. eauto.
Qed.

(** The table file after a completed run, row by row as the next run will
    read it, and the ids of its rows. *)
Lemma written_table season_id csv_filename d c ods bf new ids0 :
  visits_each_once →
  stats_source_faithful →
  loaded d = Ok c →
  mapE row_id (loaded_rows d) = Ok ids0 →
  mapE match_data (set_iter (cached_but_no_data c)) = Ok bf →
  mapE match_data (filter (λ v, v ≠ 0 ∧ v ∉ known_data_ids c) ods) = Ok new →
  ∀ cached np,
    loaded_rows (persisted season_id csv_filename d
                   (cached, np, known_match_data c ++ bf ++ new))
    = reread <$> (known_match_data c ++ bf ++ new)
    ∧ mapE row_id (reread <$> (known_match_data c ++ bf ++ new))
      = Ok (ids0 ++ set_iter (cached_but_no_data c)
              ++ filter (λ v, v ≠ 0 ∧ v ∉ known_data_ids c) ods).
Proof.
  intros Hv Hf Hc Hids Hbf Hnew cached np. split.
  - unfold loaded_rows, persisted. cbn [table snd drop]. rewrite drop_0.
    rewrite <- list_fmap_compose. by apply list_fmap_ext.
  - destruct (loaded_Ok d c Hc) as (_ & _ & -> & _).
    rewrite !fmap_app, !mapE_app.
    rewrite (mapE_row_id_reread_loaded d ids0 Hids). cbn [mbind result_bind].
    apply mapE_Ok in Hbf, Hnew.
    rewrite (mapE_row_id_reread _ bf Hf Hbf). cbn [mbind result_bind].
    by rewrite (mapE_row_id_reread _ new Hf Hnew).
Qed.


(** C2. Start from a table whose rows have pairwise distinct, non-zero
    [stats_match_id]s and a pairing cache every non-zero Stats Match ID of
    which has its row; let the mapper send no two informal ids to the same
    non-zero Stats Match ID and the Stats Source answer each request with
    the record of the match asked for.  Then the table written by a
    completed run still has pairwise distinct [stats_match_id]s, none of
    them 0. *)
Theorem table_ids_stay_distinct season_id csv_filename w ids0 :
  visits_each_once →
  stats_source_faithful →
  mapper_injective →
  table_ids (table (storage w)) = Ok ids0 →
  NoDup ids0 →
  0 ∉ ids0 →
  (∀ v, v ∈ dict_values (loaded_pairings (storage w)) → v ≠ 0 → v ∈ ids0) →
  let res := update_data_for_season season_id csv_filename w in
  res.1 = Ok () →
  ∃ added,
    table_ids (table (storage res.2)) = Ok (ids0 ++ added)
    ∧ NoDup (ids0 ++ added)
    ∧ 0 ∉ ids0 ++ added.
Proof.
  intros Hv Hf Hinj Hids0 Hnd H0 Hcons res Hok.
  destruct (update_Ok_gathered season_id csv_filename w Hok) as ([[cached np] rows] & Hg & Hst).
  fold res in Hst.
  destruct (gathered_Ok _ _ _ _ _ Hv Hg)
    as (c & posted & ods & bf & new & Hc & -> & Hposted & Hsub & Hbf & Hods & Hnew & -> & ->).
  change (mapE row_id (loaded_rows (storage w)) = Ok ids0) in Hids0.
  destruct (loaded_Ok _ c Hc) as (Hcached & _ & _ & ids0' & Hids0' & Hknown).
  rewrite Hids0 in Hids0'. injection Hids0' as <-.
  assert (cached_but_no_data c = ∅) as Hempty.
  { apply set_eq. intros x. split; [|by intros ?%not_elem_of_empty].
    unfold cached_but_no_data, cached_od_ids. rewrite !elem_of_difference.
    rewrite elem_of_list_to_set, Hcached, Hknown, elem_of_list_to_set.
    rewrite elem_of_singleton. intros [[Hx Hnx] Hx0]. destruct Hnx. by apply Hcons. }
  destruct (written_table season_id csv_filename _ c ods bf new ids0
              Hv Hf Hc Hids0 Hbf Hnew (cached_id_pairings c)
              (zip (set_iter (posted ∖ cached_ld2l_ids c)) ods)) as [Hrows Hids].
  rewrite Hempty, set_iter_empty in Hids by done. cbn [app] in Hids.
  exists (filter (λ v, v ≠ 0 ∧ v ∉ known_data_ids c) ods).
  split; [|split].
  - change (mapE row_id (loaded_rows (storage res.2)) = Ok
              (ids0 ++ filter (λ v, v ≠ 0 ∧ v ∉ known_data_ids c) ods)).
    by rewrite Hst, Hrows.
  - apply NoDup_app. split; [done|]. split.
    + intros x Hx [[_ Hnx] _]%list_elem_of_filter. apply Hnx.
      rewrite Hknown. by apply elem_of_list_to_set.
    + apply (filter_ods_NoDup (λ v, v ∉ known_data_ids c)
               (set_iter (posted ∖ cached_ld2l_ids c))); [done| |by apply mapE_Ok].
      by apply set_iter_NoDup.
  - rewrite elem_of_app. intros [?|[[Hx _] _]%list_elem_of_filter]; done.
Qed.


(** ** Reconciliation Engine: running twice *)

Lemma int_keys_written d c posted ods :
  visits_each_once →
  loaded d = Ok c →
  length (set_iter (posted ∖ cached_ld2l_ids c)) = length ods →
  int_keys (json_dump (merged_pairings (cached_id_pairings c)
                         (zip (set_iter (posted ∖ cached_ld2l_ids c)) ods)))
  = Ok (cached_ld2l_ids c ∪ (posted ∖ cached_ld2l_ids c)).
Proof.
  intros Hv Hc Hlen. destruct (written_pairings _ c posted ods Hv Hc Hlen) as (_ & Hk & _).
  destruct (loaded_Ok _ c Hc) as (Hcached & Hkeys & _).
  unfold int_keys, dict_keys in *. rewrite Hk, mapE_app. rewrite <- Hcached in Hkeys.
  destruct (mapE py_int (cached_id_pairings c).*1) as [l|]; [|done].
  cbn in Hkeys. injection Hkeys as Hl. cbn [mbind result_bind].
  rewrite mapE_py_int_py_str. cbn [mbind result_bind]. f_equal.
  by rewrite list_to_set_app_L, Hl, list_to_set_set_iter.
Qed.

Lemma values_prod_map {A B C} (f : A → C) (l : list (A * B)) :
  (prod_map f id <$> l).*2 = l.*2.
Proof. induction l as [|[a b] l IH]; [done|]. cbn. by rewrite IH. Qed.

(** A run that starts from the disk a completed run has left, against the
    same answers, finds nothing to fetch and gathers what is on the disk. *)
Lemma gathered_again season_id csv_filename d u :
  visits_each_once →
  stats_source_faithful →
  gathered season_id d = Ok u →
  gathered season_id (persisted season_id csv_filename d u)
  = Ok (json_dump (merged_pairings u.1.1 u.1.2), [], reread <$> u.2).
Proof.
  intros Hv Hf Hg. destruct u as [[cached np] rows].
  destruct (gathered_Ok _ _ _ _ _ Hv Hg)
    as (c & posted & ods & bf & new & Hc & -> & Hposted & Hsub & Hbf & Hods & Hnew & -> & ->).
  cbn [fst snd].
  pose proof Hods as Hods2. apply mapE_Ok in Hods2.
  pose proof (Forall2_length _ _ _ Hods2) as Hlen.
  destruct (written_pairings _ c posted ods Hv Hc Hlen) as (Hw & Hk & Hnd).
  pose proof (int_keys_written _ c posted ods Hv Hc Hlen) as Hkeys2.
  destruct (loaded_Ok _ c Hc) as (Hcached & Hkeys & Hrows0 & ids0 & Hids0 & Hknown).
  set (ids := set_iter (posted ∖ cached_ld2l_ids c)) in *.
  set (written := json_dump (merged_pairings (cached_id_pairings c) (zip ids ods))) in *.
  set (rows := known_match_data c ++ bf ++ new) in *.
  set (d1 := persisted season_id csv_filename d (cached_id_pairings c, zip ids ods, rows)).
  destruct (written_table season_id csv_filename d c ods bf new ids0
              Hv Hf Hc Hids0 Hbf Hnew (cached_id_pairings c) (zip ids ods))
    as [Hrows1 Hids1].
  fold rows d1 in Hrows1, Hids1.
  assert (loaded_pairings d1 = written) as Hlp
    by (unfold loaded_pairings, d1, persisted; cbn; by apply json_load_id).
  assert (cached_ld2l_ids c ∪ (posted ∖ cached_ld2l_ids c) = posted) as Hall.
  { apply set_eq. intros x. rewrite elem_of_union, elem_of_difference.
    split; [intros [?%Hsub|[? _]]; done|]. intros Hx.
    destruct (decide (x ∈ cached_ld2l_ids c)); [by left|by right]. }
  rewrite Hall in Hkeys2.
  set (known1 := list_to_set
                   (ids0 ++ set_iter (cached_but_no_data c)
                      ++ filter (λ v, v ≠ 0 ∧ v ∉ known_data_ids c) ods) : gset Z).
  assert (loaded d1 = Ok (Caches written posted (reread <$> rows) known1)) as Hc1.
  { unfold loaded. rewrite Hlp, Hkeys2. cbn [mbind result_bind].
    by rewrite Hrows1, Hids1. }
  unfold gathered. rewrite Hc1. cbn [mbind result_bind].
  rewrite backfilled_eq by done.
  assert (cached_but_no_data (Caches written posted (reread <$> rows) known1) = ∅)
    as ->.
  { apply set_eq. intros x. split; [|by intros ?%not_elem_of_empty].
    unfold cached_but_no_data, cached_od_ids. cbn [cached_id_pairings known_data_ids].
    rewrite !elem_of_difference, elem_of_singleton, elem_of_list_to_set.
    unfold dict_values. rewrite Hw, fmap_app, values_prod_map.
    rewrite snd_zip by (fold ids in Hlen; lia).
    intros [[Hx Hnx] Hx0]. destruct Hnx. unfold known1.
    rewrite elem_of_list_to_set, !elem_of_app.
    destruct (decide (x ∈ known_data_ids c)) as [Hk1|Hk1].
    { left. rewrite Hknown in Hk1. by apply elem_of_list_to_set in Hk1. }
    apply elem_of_app in Hx as [Hx|Hx].
    - right. left. apply elem_of_set_iter; [done|].
      unfold cached_but_no_data, cached_od_ids.
      rewrite !elem_of_difference, elem_of_singleton, elem_of_list_to_set. done.
    - right. right. by apply list_elem_of_filter. }
  rewrite set_iter_empty by done. cbn [mapE mbind result_bind known_match_data].
  rewrite app_nil_r. unfold discovered. rewrite Hposted.
  cbn [mbind result_bind cached_ld2l_ids].
  rewrite decide_True by (by apply size_zero_subseteq).
  cbn [mbind result_bind]. rewrite processed_eq by done. cbn [cached_ld2l_ids].
  assert (posted ∖ posted = (∅ : gset Z)) as ->.
  { apply set_eq. intros x. rewrite elem_of_difference.
    split; [by intros [? ?]|by intros ?%not_elem_of_empty]. }
  rewrite set_iter_empty by done. done.
Qed.

Lemma csv_text_reread row : csv_text <$> reread row = csv_text <$> row.
Proof.
  unfold reread. rewrite <- list_fmap_compose.
  rewrite <- (list_fmap_id (csv_text <$> row)) at 2. by apply list_fmap_ext.
Qed.

(** C3 (amended). When the Stats Source answers each request with the
    record of the match asked for, running the synchronisation twice in a
    row against the same answers leaves, after the second run, the pairing
    cache file and the table file with the contents they had after the
    first. *)
Theorem second_run_changes_nothing season_id csv_filename w :
  visits_each_once →
  stats_source_faithful →
  let w1 := (update_data_for_season season_id csv_filename w).2 in
  let w2 := (update_data_for_season season_id csv_filename w1).2 in
  pairing_cache (storage w2) = pairing_cache (storage w1)
  ∧ table (storage w2) = table (storage w1).
Proof.
  intros Hv Hf w1 w2.
  destruct (update_data_for_season_spec season_id csv_filename w) as [_ H1].
  destruct (update_data_for_season_spec season_id csv_filename w1) as [_ H2].
  fold w1 in H1. fold w2 in H2.
  destruct (gathered season_id (storage w)) as [u|e] eqn:Hg.
  - destruct H1 as [_ Hst1]. rewrite Hst1 in H2.
    rewrite (gathered_again season_id csv_filename _ u Hv Hf Hg) in H2.
    destruct H2 as [_ Hst2]. rewrite Hst2, Hst1. unfold persisted.
    cbn [pairing_cache table fst snd]. rewrite json_dump_loaded. split; [done|].
    f_equal. f_equal. rewrite <- list_fmap_compose. apply list_fmap_ext.
    intros i row _. apply csv_text_reread.
  - destruct H1 as [_ Hst1]. rewrite Hst1, Hg in H2. destruct H2 as [_ Hst2].
    by rewrite Hst2, Hst1.
Qed.

(** * Further properties *)

(** ** Identifier Mapper and Match-List Scanner *)

Lemma py_drop_app p s : py_drop (String.length p) (p +:+ s) = s.
Proof. clear. induction p as [|c p IH]; [done|]. cbn. exact IH. Qed.

Lemma py_drop_short n s : (String.length s ≤ n)%nat → py_drop n s = "".
Proof.
  clear. revert s. induction n as [|n IH]; intros [|c s] Hlen; cbn in *; try done; [lia|].
  apply IH. lia.
Qed.

(** X1. Whatever the first 33 characters of the link are, the Identifier
    Mapper returns the integer written after them: the host and path of the
    link are not looked at. *)
Theorem ld2l_to_opendota_reads_tail prefix z :
  String.length prefix = 33%nat →
  ld2l_to_opendota (MatchPage (Some (prefix +:+ py_str z))) = Ok z.
Proof.
  intros Hlen. cbn [ld2l_to_opendota]. rewrite <- Hlen, py_drop_app.
  apply py_int_py_str.
Qed.

(** X2. A link of at most 33 characters leaves nothing after the slice
    [od_link[33:]] and the Identifier Mapper raises [ValueError]. *)
Theorem ld2l_to_opendota_short_link link :
  (String.length link ≤ 33)%nat →
  ld2l_to_opendota (MatchPage (Some link)) = Raise ValueError.
Proof. intros Hlen. cbn [ld2l_to_opendota]. by rewrite py_drop_short. Qed.

Lemma scrape_listing cols :
  scrape_ld2l_completed_matches (ListingPage cols)
  = (ids ← mapE (λ c, match td_a_href c with
                      | Some href => py_int (py_drop 9 href)
                      | None => Raise TypeError
                      end)
                (filter (λ c, td_span c = true) cols);
     Ok (list_to_set ids)).
Proof. reflexivity. Qed.

(** X3. When the Match-List Scanner returns a set, its members are exactly
    the integers read after the first 9 characters of the link of some cell
    that holds the crown. *)
Theorem scrape_completed_members cols s k :
  scrape_ld2l_completed_matches (ListingPage cols) = Ok s →
  k ∈ s ↔ ∃ c href, c ∈ cols ∧ td_span c = true ∧ td_a_href c = Some href
                    ∧ py_int (py_drop 9 href) = Ok k.
Proof.
  rewrite scrape_listing. destruct (mapE _ _) as [ids|] eqn:Hids; [|done].
  cbn [mbind result_bind]. intros [= <-]. apply mapE_Ok in Hids.
  rewrite elem_of_list_to_set. split.
  - intros [i Hi]%list_elem_of_lookup.
    destruct (Forall2_lookup_r _ _ _ _ _ Hids Hi) as (c & Hc & Hck).
    apply list_elem_of_lookup_2, list_elem_of_filter in Hc as [Hspan Hc].
    destruct (td_a_href c) as [href|] eqn:Hhref; [|done]. by exists c, href.
  - intros (c & href & Hc & Hspan & Hhref & Hk).
    assert (c ∈ filter (λ c, td_span c = true) cols) as [i Hi]%list_elem_of_lookup
      by by apply list_elem_of_filter.
    destruct (Forall2_lookup_l _ _ _ _ _ Hids Hi) as (k' & Hk' & Hck).
    rewrite Hhref, Hk in Hck. injection Hck as <-. by apply list_elem_of_lookup_2 in Hk'.
Qed.

(** X4. When the Match-List Scanner returns a set, no cell that holds the
    crown was skipped to get it: each of them has a link with an integer
    after its first 9 characters, and that integer is in the set.  Hence a
    single crowned cell without a link, or with a link that does not end
    in an integer, keeps the scan from returning any set. *)
Theorem scrape_completed_reads_every_crown cols s c :
  scrape_ld2l_completed_matches (ListingPage cols) = Ok s →
  c ∈ cols → td_span c = true →
  ∃ href k, td_a_href c = Some href ∧ py_int (py_drop 9 href) = Ok k ∧ k ∈ s.
Proof.
  rewrite scrape_listing. destruct (mapE _ _) as [ids|] eqn:Hids; [|done].
  cbn [mbind result_bind]. intros [= <-] Hc Hspan. apply mapE_Ok in Hids.
  assert (c ∈ filter (λ c, td_span c = true) cols) as [i Hi]%list_elem_of_lookup
    by by apply list_elem_of_filter.
  destruct (Forall2_lookup_l _ _ _ _ _ Hids Hi) as (k & Hk & Hck).
  destruct (td_a_href c) as [href|]; [|done]. exists href, k.
  split; [done|]. split; [done|].
  rewrite elem_of_list_to_set. by apply list_elem_of_lookup_2 in Hk.
Qed.

(** ** Stats Extractor: shape, order and malformed players *)

Lemma foldE_app {S A} (f : S → A → result S) l1 l2 s :
  foldE f (l1 ++ l2) s = (s' ← foldE f l1 s; foldE f l2 s').
Proof.
  clear. revert s. induction l1 as [|x l1 IH]; intros s; [done|]. cbn.
  destruct (f s x); cbn; [apply IH|done].
Qed.

Lemma foldE_invariant {S A} (P : S → Prop) (f : S → A → result S) l s s' :
  (∀ s x s', P s → f s x = Ok s' → P s') → P s → foldE f l s = Ok s' → P s'.
Proof.
  clear. intros Hf. revert s. induction l as [|x l IH]; intros s Hs; cbn.
  - by intros [= <-].
  - destruct (f s x) as [s1|] eqn:Hfx; [|done]. cbn. apply IH. by apply (Hf s x).
Qed.

Lemma desired_fields_match_record mid rid did ps :
  desired_fields (match_record mid rid did ps)
  = (sums ← foldE add_player ps [[0; 0; 0; 0; 0]; [0; 0; 0; 0; 0]];
     Ok ([mid; rid] ++ (PInt <$> default [] (sums !! 0%nat))
           ++ [did] ++ (PInt <$> default [] (sums !! 1%nat)))).
Proof. reflexivity. Qed.

Lemma add_player_wraps p a0 a1 a2 a3 a4 b0 b1 b2 b3 b4 :
  indexable_player p →
  add_player [[a0; a1; a2; a3; a4]; [b0; b1; b2; b3; b4]] p =
  Ok (if decide (team_index (field_int p "player_slot") = 0) then
        [[a0 + field_int p "kills"; a1 + field_int p "deaths";
          a2 + field_int p "assists"; a3 + field_int p "gold_per_min";
          a4 + field_int p "xp_per_min"]; [b0; b1; b2; b3; b4]]
      else
        [[a0; a1; a2; a3; a4];
         [b0 + field_int p "kills"; b1 + field_int p "deaths";
          b2 + field_int p "assists"; b3 + field_int p "gold_per_min";
          b4 + field_int p "xp_per_min"]]).
Proof.
  clear. intros [(slot & Hslot & Hrange) Hstats].
  repeat (apply Forall_cons in Hstats as [[? ?] Hstats]).
  unfold add_player, field_int, team_index. rewrite Hslot.
  cbn [mbind result_bind as_int].
  assert (slot `div` 128 = -2 ∨ slot `div` 128 = -1
          ∨ slot `div` 128 = 0 ∨ slot `div` 128 = 1)
    as [-> | [-> | [-> | ->]]] by (Z.div_mod_to_equations; lia); cbn;
    repeat match goal with H : py_getitem p _ = _ |- _ => rewrite H; clear H end;
    reflexivity.
Qed.

Lemma indexable_player_team p :
  indexable_player p →
  team_index (field_int p "player_slot") = 0 ∨ team_index (field_int p "player_slot") = 1.
Proof. clear. intros _. unfold team_index. Z.div_mod_to_equations. lia. Qed.

Lemma foldE_add_player_wraps ps :
  Forall indexable_player ps →
  ∀ a0 a1 a2 a3 a4 b0 b1 b2 b3 b4,
    foldE add_player ps [[a0; a1; a2; a3; a4]; [b0; b1; b2; b3; b4]] =
    Ok [zip_with Z.add [a0; a1; a2; a3; a4] (totals_of_team 0 ps);
        zip_with Z.add [b0; b1; b2; b3; b4] (totals_of_team 1 ps)].
Proof.
  induction 1 as [|p ps Hp Hps IH]; intros.
  - cbn. f_equal. repeat first [reflexivity | lia | apply (f_equal2 cons)].
  - cbn [foldE]. rewrite add_player_wraps by done.
    pose proof (indexable_player_team p Hp) as Hteam.
    unfold totals_of_team. cbn [fmap list_fmap stat_names]. rewrite !filter_cons.
    destruct (decide (team_index (field_int p "player_slot") = 0)) as [Hr|Hd].
    + rewrite (decide_False (P := team_index _ = 1)) by lia.
      cbn [mbind result_bind]. rewrite IH. unfold totals_of_team, sumZ. cbn.
      f_equal. repeat first [reflexivity | lia | apply (f_equal2 cons)].
    + rewrite (decide_True (P := team_index _ = 1)) by lia.
      cbn [mbind result_bind]. rewrite IH. unfold totals_of_team, sumZ. cbn.
      f_equal. repeat first [reflexivity | lia | apply (f_equal2 cons)].
Qed.

(** X5. A slot between -256 and -1 does not raise: [sums[slot // 128]]
    counts from the end, so slots -128..-1 are added to the dire totals and
    slots -256..-129 to the radiant totals.  For players with slots anywhere
    in -256..255 the row holds, per team, the totals over the players whose
    [slot // 128] is even (radiant) or odd (dire). *)
Theorem desired_fields_wraps_negative_slots mid rid did ps :
  Forall indexable_player ps →
  desired_fields (match_record mid rid did ps) =
  Ok ([mid; rid] ++ (PInt <$> totals_of_team 0 ps)
        ++ [did] ++ (PInt <$> totals_of_team 1 ps)).
Proof.
  intros Hps. rewrite desired_fields_match_record, foldE_add_player_wraps by done.
  cbn [mbind result_bind]. unfold totals_of_team. cbn. repeat f_equal.
Qed.

Lemma sumZ_Permutation l1 l2 : l1 ≡ₚ l2 → sumZ l1 = sumZ l2.
Proof. clear. unfold sumZ. induction 1; cbn [foldr] in *; lia. Qed.

Lemma totals_of_team_Permutation team ps ps' :
  ps ≡ₚ ps' → totals_of_team team ps = totals_of_team team ps'.
Proof.
  clear. intros Hperm. unfold totals_of_team. apply list_fmap_ext. intros i stat _.
  apply sumZ_Permutation. by rewrite Hperm.
Qed.

(** X6. For records whose players all carry an integer [player_slot]
    between -256 and 255 and five integer statistics, the order in which
    the Stats Source lists the players does not matter: two such records
    that differ only by a permutation of their players give the same row.
    (Statistics that are not integers are not covered.) *)
Theorem desired_fields_player_order mid rid did ps ps' :
  Forall indexable_player ps →
  ps ≡ₚ ps' →
  desired_fields (match_record mid rid did ps)
  = desired_fields (match_record mid rid did ps').
Proof.
  intros Hps Hperm. assert (Forall indexable_player ps') as Hps' by by rewrite <- Hperm.
  rewrite !desired_fields_match_record, !foldE_add_player_wraps by done.
  by rewrite !(totals_of_team_Permutation _ ps ps').
Qed.

Lemma add_stat_shape p team sums i_stat sums' :
  length sums = 2%nat ∧ Forall (λ r, length r = 5%nat) sums →
  add_stat p team sums i_stat = Ok sums' →
  length sums' = 2%nat ∧ Forall (λ r, length r = 5%nat) sums'.
Proof.
  clear. intros [Hlen Hrows]. destruct i_stat as [i stat]. unfold add_stat.
  destruct (py_index (length sums) team) as [t|]; [|done]. cbn [mbind result_bind].
  destruct (sums !! t) as [row|] eqn:Hrow; [|done].
  destruct (row !! i) as [old|]; [|done].
  destruct (py_getitem p stat) as [x|]; [|done]. cbn [mbind result_bind].
  destruct (as_int x) as [n|]; [|done]. cbn [mbind result_bind]. intros [= <-].
  split; [by rewrite length_insert|]. apply Forall_insert; [done|].
  rewrite length_insert. by apply (Forall_lookup_1 _ _ _ _ Hrows Hrow).
Qed.

Lemma add_player_shape sums p sums' :
  length sums = 2%nat ∧ Forall (λ r, length r = 5%nat) sums →
  add_player sums p = Ok sums' →
  length sums' = 2%nat ∧ Forall (λ r, length r = 5%nat) sums'.
Proof.
  clear. intros Hshape. unfold add_player.
  destruct (py_getitem p "player_slot") as [slot|]; [|done]. cbn [mbind result_bind].
  destruct (as_int slot) as [z|]; [|done]. cbn [mbind result_bind].
  intros Hfold.
  eapply (foldE_invariant
            (λ s, length s = 2%nat ∧ Forall (λ r, length r = 5%nat) s));
    [|exact Hshape|exact Hfold].
  intros s x s'. apply add_stat_shape.
Qed.

(** X7. Whatever the record, a row that [desired_fields] returns has
    exactly 13 entries, one per column of the header. *)
Theorem desired_fields_row_width m row :
  desired_fields m = Ok row → length row = length header.
Proof.
  unfold desired_fields. destruct (py_getitem m "match_id"); [|done].
  cbn [mbind result_bind]. destruct (py_getitem m "radiant_team_id"); [|done].
  cbn [mbind result_bind]. destruct (py_getitem m "dire_team_id"); [|done].
  cbn [mbind result_bind]. destruct (py_getitem m "players") as [ps|]; [|done].
  cbn [mbind result_bind]. destruct (py_iter ps) as [players|]; [|done].
  cbn [mbind result_bind].
  destruct (foldE add_player players _) as [sums|] eqn:Hsums; [|done].
  cbn [mbind result_bind]. intros [= <-].
  apply (foldE_invariant (λ sums, length sums = 2%nat ∧ Forall (λ r, length r = 5%nat) sums))
    in Hsums as [Hlen Hrows]; [|intros s x s'; apply add_player_shape|].
  - destruct sums as [|r0 [|r1 [|? ?]]]; try done.
    apply Forall_cons in Hrows as [H0 Hrows]. apply Forall_cons in Hrows as [H1 _].
    cbn. rewrite !length_app, !length_fmap. cbn. rewrite !length_fmap. lia.
  - split; [done|]. by repeat constructor.
Qed.

Lemma desired_fields_after_players mid rid did ps p rest e :
  Forall indexable_player ps →
  (∀ a0 a1 a2 a3 a4 b0 b1 b2 b3 b4,
     add_player [[a0; a1; a2; a3; a4]; [b0; b1; b2; b3; b4]] p = Raise e) →
  desired_fields (match_record mid rid did (ps ++ p :: rest)) = Raise e.
Proof.
  intros Hps Hp. rewrite desired_fields_match_record, foldE_app.
  rewrite foldE_add_player_wraps by done. unfold totals_of_team.
  cbn [mbind result_bind foldE stat_names fmap list_fmap zip_with].
  by rewrite Hp.
Qed.

Lemma py_index_out_of_range n i :
  i < - Z.of_nat n ∨ Z.of_nat n ≤ i → py_index n i = Raise IndexError.
Proof.
  clear. intros Hi. unfold py_index.
  destruct (Z.leb_spec 0 i), (Z.ltb_spec i (Z.of_nat n)),
    (Z.leb_spec (- Z.of_nat n) i), (Z.ltb_spec i 0); try reflexivity; lia.
Qed.

(** X8. A player whose slot is 256 or more, or below -256, makes
    [sums[slot // 128]] raise: the whole record is refused with [IndexError],
    whatever the players after it are. *)
Theorem desired_fields_slot_out_of_range mid rid did ps p rest slot :
  Forall indexable_player ps →
  py_getitem p "player_slot" = Ok (PInt slot) →
  slot < -256 ∨ 256 ≤ slot →
  desired_fields (match_record mid rid did (ps ++ p :: rest)) = Raise IndexError.
Proof.
  clear http lag hz set_iter container_str.
  intros Hps Hslot Hrange. apply desired_fields_after_players; [done|].
  intros. unfold add_player. rewrite Hslot.
  cbn [mbind result_bind as_int stat_names imap foldE add_stat length].
  rewrite py_index_out_of_range; [done|]. cbn. Z.div_mod_to_equations. lia.
Qed.

(** X9. Let the players read first all carry an integer [player_slot]
    between -256 and 255 and five integer statistics.  If the next player
    has no [player_slot], or has an integer [player_slot] between -256 and
    255, lacks at least one of the five statistics and has integers for
    those it carries, the whole record fails with [KeyError]: no row is
    returned for the players read before it, whatever follows. *)
Theorem desired_fields_missing_field mid rid did ps p rest :
  Forall indexable_player ps →
  lacks_a_field p →
  desired_fields (match_record mid rid did (ps ++ p :: rest)) = Raise KeyError.
Proof.
  clear http lag hz set_iter container_str.
  intros Hps Hp. apply desired_fields_after_players; [done|]. intros.
  unfold add_player.
  destruct Hp as [->|((slot & Hslot & Hrange) & Hstats & Habsent)]; [done|].
  rewrite Hslot. cbn [mbind result_bind as_int].
  repeat (apply Forall_cons in Hstats as [? Hstats]).
  unfold stat_names in Habsent. rewrite !Exists_cons, Exists_nil in Habsent.
  assert (slot `div` 128 = -2 ∨ slot `div` 128 = -1
          ∨ slot `div` 128 = 0 ∨ slot `div` 128 = 1)
    as [-> | [-> | [-> | ->]]] by (Z.div_mod_to_equations; lia); cbn;
    repeat match goal with H : (∃ _, _) ∨ _ |- _ => destruct H as [[? H]|H] end;
    repeat match goal with
           | H : py_getitem p ?s = _ |- context [py_getitem p ?s] => rewrite H
           end;
    first [reflexivity | exfalso; intuition congruence].
Qed.

(** X10. The fourth and fifth totals of each team are added in the order
    gold per minute, experience per minute, while the header names the
    columns in the other order: the column headed [r_xpm] holds the radiant
    total of [gold_per_min] and [r_gpm] that of [xp_per_min], and likewise
    [d_xpm] and [d_gpm] for the dire team. *)
Theorem gold_and_xp_columns_swapped mid rid did ps :
  Forall indexable_player ps →
  ∃ row,
    desired_fields (match_record mid rid did ps) = Ok row
    ∧ header !! 5%nat = Some "r_xpm"
    ∧ row !! 5%nat = Some (PInt (team_stat 0 "gold_per_min" ps))
    ∧ header !! 6%nat = Some "r_gpm"
    ∧ row !! 6%nat = Some (PInt (team_stat 0 "xp_per_min" ps))
    ∧ header !! 11%nat = Some "d_xpm"
    ∧ row !! 11%nat = Some (PInt (team_stat 1 "gold_per_min" ps))
    ∧ header !! 12%nat = Some "d_gpm"
    ∧ row !! 12%nat = Some (PInt (team_stat 1 "xp_per_min" ps)).
Proof.
  intros Hps. rewrite desired_fields_match_record, foldE_add_player_wraps by done.
  eexists. split; [reflexivity|]. unfold totals_of_team, team_stat. cbn.
  repeat split; reflexivity.
Qed.

(** ** Rate-Limited Fetcher: one call *)

(** X11. A call of [pull] issues exactly one request, to [base_url]
    followed by the path it is given, and returns what that request gives or
    raises what it raises; it touches neither the disk nor the console, and
    keeps the interval and the base of the instance. *)
Theorem pull_issues_one_request url p w :
  let res := pull url (p, w) in
  ∃ start,
    requests res.2.2 = requests w ++ [(start, base_url p +:+ url)]
    ∧ res.1 = fetch (base_url p +:+ url)
    ∧ storage res.2.2 = storage w
    ∧ console res.2.2 = console w
    ∧ duration res.2.1 = duration p
    ∧ base_url res.2.1 = base_url p.
Proof.
  unfold pull, fetch, mbind, ST_bind, in_world, get_self, set_prev_pull, time_time,
    time_sleep, re_get. cbn.
  destruct (decide (clock w + lag (ops w) - prev_pull p < duration p)); cbn;
    destruct (http (base_url p +:+ url)); cbn; eexists; repeat split; reflexivity.
Qed.

(** X12. In an environment without delays, the request of a call of [pull]
    leaves at the later of the time of the call and the previous-call
    instant plus the interval: the call waits for the remainder of the
    interval and never longer, and does not wait at all once the interval has
    passed. *)
Theorem pull_waits_for_the_remainder url p w :
  (∀ n, lag n = 0) →
  requests (pull url (p, w)).2.2
  = requests w ++ [(Z.max (clock w) (prev_pull p + duration p), base_url p +:+ url)].
Proof.
  intros Hlag.
  unfold pull, mbind, ST_bind, in_world, get_self, set_prev_pull, time_time,
    time_sleep, re_get. cbn. rewrite !Hlag.
  destruct (decide (clock w + 0 - prev_pull p < duration p)); cbn; rewrite ?Hlag;
    destruct (http (base_url p +:+ url)); cbn; do 3 f_equal; lia.
Qed.

(** ** Reconciliation Engine: loading, and the rows a run adds *)

Lemma load_caches_run w : load_caches w = (loaded (storage w), w).
Proof.
  unfold load_caches, loaded, mbind, ST_bind, read_pairing_cache, read_table, liftE,
    loaded_pairings, loaded_rows. cbn.
  destruct (int_keys _) as [ids|]; cbn; [|done].
  by destruct (mapE row_id _).
Qed.

(** X13. When the caches cannot be loaded (a key of the pairing cache is
    not an integer literal, or a row of the table after the first line is
    empty or does not start with one), the run raises that error at once: no
    request is issued, nothing is printed or written, the clock is not even
    read. *)
Theorem load_failure_stops_the_run season_id csv_filename w e :
  loaded (storage w) = Raise e →
  update_data_for_season season_id csv_filename w = (Raise e, w).
Proof.
  intros He. unfold update_data_for_season, gather_updates, mbind, ST_bind.
  by rewrite load_caches_run, He.
Qed.

(** X14. A completed run never rewrites or reorders the rows it loaded:
    the table it writes is the fixed header, then the rows of the old file
    after its first line, unchanged and in order, then the rows added by the
    run.  The first line of the old file is dropped whatever it holds. *)
Theorem persist_appends_rows season_id csv_filename w :
  visits_each_once →
  let res := update_data_for_season season_id csv_filename w in
  res.1 = Ok () →
  ∃ added,
    table (storage res.2)
    = Some (header :: drop 1 (default [] (table (storage w))) ++ added).
Proof.
  intros Hv res Hok.
  destruct (update_Ok_gathered season_id csv_filename w Hok) as ([[cached np] rows] & Hg & Hst).
  fold res in Hst.
  destruct (gathered_Ok _ _ _ _ _ Hv Hg)
    as (c & posted & ods & bf & new & Hc & -> & Hposted & Hsub & Hbf & Hods & Hnew & -> & ->).
  destruct (loaded_Ok _ c Hc) as (_ & _ & Hrows & _).
  exists (fmap (M:=list) csv_text <$> (bf ++ new)).
  rewrite Hst. unfold persisted. cbn [table snd]. rewrite fmap_app, Hrows.
  do 3 f_equal. unfold loaded_rows.
  destruct (table (storage w)) as [rows0|]; cbn [default]; [|done].
  apply csv_text_loaded.
Qed.

(** X15. With a Stats Source that answers each request with the record
    asked for, the [match_id] column of the table written by a completed run
    is: the ids loaded, then the cached Stats Match IDs that had no row (0
    left out), then the Stats Match IDs of the new matches that are neither 0
    nor already in the table, each group in the order the run visited it. *)
Theorem written_table_ids season_id csv_filename w c ids0 :
  visits_each_once →
  stats_source_faithful →
  loaded (storage w) = Ok c →
  table_ids (table (storage w)) = Ok ids0 →
  let res := update_data_for_season season_id csv_filename w in
  res.1 = Ok () →
  ∃ posted ods,
    currently_posted_of season_id = Ok posted
    ∧ mapE od_id_of (set_iter (posted ∖ cached_ld2l_ids c)) = Ok ods
    ∧ table_ids (table (storage res.2))
      = Ok (ids0 ++ set_iter (cached_but_no_data c)
              ++ filter (λ v, v ≠ 0 ∧ v ∉ known_data_ids c) ods).
Proof.
  intros Hv Hf Hc Hids0 res Hok.
  destruct (update_Ok_gathered season_id csv_filename w Hok) as ([[cached np] rows] & Hg & Hst).
  fold res in Hst.
  destruct (gathered_Ok _ _ _ _ _ Hv Hg)
    as (c' & posted & ods & bf & new & Hc' & -> & Hposted & Hsub & Hbf & Hods & Hnew & -> & ->).
  rewrite Hc in Hc'. injection Hc' as <-.
  change (mapE row_id (loaded_rows (storage w)) = Ok ids0) in Hids0.
  destruct (written_table season_id csv_filename _ c ods bf new ids0
              Hv Hf Hc Hids0 Hbf Hnew (cached_id_pairings c)
              (zip (set_iter (posted ∖ cached_ld2l_ids c)) ods)) as [Hrows Hids].
  exists posted, ods. split; [done|]. split; [done|].
  change (mapE row_id (loaded_rows (storage res.2)) = Ok
            (ids0 ++ set_iter (cached_but_no_data c)
               ++ filter (λ v, v ≠ 0 ∧ v ∉ known_data_ids c) ods)).
  by rewrite Hst, Hrows.
Qed.



(** * The requests and the messages of a run *)

(** ** Rules of the program logic *)

Lemma triple_ret {A} (P : world → Prop) (a : A) (Q : A → world → Prop) E :
  (∀ w, P w → Q a w) → triple P (mret a) Q E.
Proof. intros H w Hw. by apply H. Qed.

Lemma triple_bind {A B} P (m : M A) (f : A → M B) Q1 Q E :
  triple P m Q1 E → (∀ a, triple (Q1 a) (f a) Q E) → triple P (m ≫= f) Q E.
Proof.
  intros Hm Hf w Hw. specialize (Hm w Hw). unfold mbind, ST_bind.
  destruct (m w) as [[a|e] w']; [|done]. by apply Hf.
Qed.

Lemma triple_ret_bind {A B} P (a : A) (f : A → M B) Q E :
  triple P (f a) Q E → triple P (mret a ≫= f) Q E.
Proof. intros Hf w Hw. by apply Hf. Qed.

Lemma triple_liftE_bind {A B} P (r : result A) (f : A → M B) Q E :
  (∀ a, r = Ok a → triple P (f a) Q E) →
  (∀ e, r = Raise e → ∀ w, P w → E w) →
  triple P (liftE r ≫= f) Q E.
Proof.
  intros HQ HE w Hw. unfold mbind, ST_bind, liftE.
  destruct r as [a|e]; [by apply (HQ a)|by apply (HE e)].
Qed.

Lemma triple_print_bind {B} P msg (f : unit → M B) Q E :
  triple (λ w, ∃ w1, P w1 ∧ w = log_console msg w1) (f ()) Q E →
  triple P (print msg ≫= f) Q E.
Proof.
  intros Hf w Hw. unfold mbind, ST_bind, print. apply Hf. by exists w.
Qed.

Lemma triple_conseq {A} (P P' : world → Prop) (m : M A) (Q Q' : A → world → Prop)
    (E E' : world → Prop) :
  triple P' m Q' E' →
  (∀ w, P w → P' w) → (∀ a w, Q' a w → Q a w) → (∀ w, E' w → E w) →
  triple P m Q E.
Proof.
  intros Hm HP HQ HE w Hw. specialize (Hm w (HP w Hw)).
  destruct (m w) as [[a|e] w']; auto.
Qed.

Lemma triple_foldM {T A} (f : T → A → M T) (l : list A) (I : T → world → Prop) E t :
  (∀ t x, x ∈ l → triple (I t) (f t x) I E) → triple (I t) (foldM f l t) I E.
Proof.
  revert t. induction l as [|x l IH]; intros t Hf; cbn [foldM].
  - by apply triple_ret.
  - eapply triple_bind; [apply Hf; left|].
    intros t'. apply IH. intros t'' y Hy. apply Hf. by right.
Qed.

(** ** Spacing *)

Lemma to_ld2l_ld2l url : to_ld2l ("https://ld2l.gg/" +:+ url) = true.
Proof. by destruct url. Qed.
Lemma to_opendota_ld2l url : to_opendota ("https://ld2l.gg/" +:+ url) = false.
Proof. reflexivity. Qed.
Lemma to_ld2l_opendota url : to_ld2l ("https://api.opendota.com/api/" +:+ url) = false.
Proof. reflexivity. Qed.
Lemma to_opendota_opendota url :
  to_opendota ("https://api.opendota.com/api/" +:+ url) = true.
Proof. by destruct url. Qed.

Lemma spaced_nil d1 d2 : spaced d1 d2 [].
Proof. intros i j t1 u1 t2 u2 _ Hi. by rewrite lookup_nil in Hi. Qed.

Lemma spaced_snoc d1 d2 log t u :
  spaced d1 d2 log →
  Forall (λ tu, (to_ld2l tu.2 = true → to_ld2l u = true → d1 ≤ t - tu.1)
                ∧ (to_opendota tu.2 = true → to_opendota u = true → d2 ≤ t - tu.1)) log →
  spaced d1 d2 (log ++ [(t, u)]).
Proof.
  intros Hs Hall i j t1 u1 t2 u2 Hij Hi Hj.
  destruct (decide (j < length log)%nat) as [Hlt|Hge].
  - rewrite lookup_app_l in Hi by lia. rewrite lookup_app_l in Hj by lia. eauto.
  - pose proof (lookup_lt_Some _ _ _ Hj) as Hlen.
    rewrite length_app in Hlen. cbn in Hlen.
    assert (j = length log) as -> by lia.
    rewrite lookup_app_l in Hi by lia.
    rewrite list_lookup_middle in Hj by done. injection Hj as <- <-.
    rewrite Forall_lookup in Hall. apply (Hall _ _ Hi).
Qed.

Lemma polite_ld2l lp lp' op log start url :
  polite lp op log →
  duration lp' = duration lp →
  prev_pull lp + duration lp ≤ start → start ≤ prev_pull lp' → 0 ≤ duration lp →
  polite lp' op (log ++ [(start, "https://ld2l.gg/" +:+ url)]).
Proof.
  intros [Hs Hb] Hd H1 H2 H3. split.
  - rewrite Hd. apply spaced_snoc; [done|].
    eapply Forall_impl; [exact Hb|]. intros [t u] [Hl Ho]. cbn in *. split.
    + intros Hu _. specialize (Hl Hu). lia.
    + intros _ Hx. by rewrite to_opendota_ld2l in Hx.
  - apply Forall_app. split.
    + eapply Forall_impl; [exact Hb|]. intros [t u] [Hl Ho]. cbn in *. split; [|done].
      intros Hu. specialize (Hl Hu). lia.
    + apply Forall_singleton. cbn. split; [done|].
      intros Hx. by rewrite to_opendota_ld2l in Hx.
Qed.

Lemma polite_opendota lp op op' log start url :
  polite lp op log →
  duration op' = duration op →
  prev_pull op + duration op ≤ start → start ≤ prev_pull op' → 0 ≤ duration op →
  polite lp op' (log ++ [(start, "https://api.opendota.com/api/" +:+ url)]).
Proof.
  intros [Hs Hb] Hd H1 H2 H3. split.
  - rewrite Hd. apply spaced_snoc; [done|].
    eapply Forall_impl; [exact Hb|]. intros [t u] [Hl Ho]. cbn in *. split.
    + intros _ Hx. by rewrite to_ld2l_opendota in Hx.
    + intros Hu _. specialize (Ho Hu). lia.
  - apply Forall_app. split.
    + eapply Forall_impl; [exact Hb|]. intros [t u] [Hl Ho]. cbn in *. split; [done|].
      intros Hu. specialize (Ho Hu). lia.
    + apply Forall_singleton. cbn. split; [|done].
      intros Hx. by rewrite to_ld2l_opendota in Hx.
Qed.

(** ** The phases of a run *)

Lemma engaged_aborted w0 season_id c printed lp op w :
  engaged w0 season_id c printed lp op w → aborted w0 season_id c w.
Proof.
  intros (_ & Hd1 & _ & Hd2 & _ & new & Hnew & Hall & Hpol).
  exists new. split; [done|]. split; [done|].
  intros Hcalm. destruct (Hpol Hcalm) as [Hs _]. by rewrite Hd1, Hd2 in Hs.
Qed.

Lemma engaged_print w0 season_id c printed lp op w msg :
  engaged w0 season_id c printed lp op w →
  engaged w0 season_id c (printed ++ [msg]) lp op (log_console msg w).
Proof.
  intros (Hb1 & Hd1 & Hb2 & Hd2 & Hcon & Hnew). repeat (split; [done|]).
  split; [|exact Hnew]. cbn. by rewrite Hcon, <- (assoc_L (++)).
Qed.

Lemma pull_console url p w : console (pull url (p, w)).2.2 = console w.
Proof.
  unfold pull, mbind, ST_bind, in_world, get_self, set_prev_pull, time_time, time_sleep,
    re_get. cbn.
  destruct (decide (clock w + lag (ops w) - prev_pull p < duration p)); cbn;
    by destruct (http (base_url p +:+ url)).
Qed.

Lemma call_pull_ld2l w0 season_id c printed lp op url :
  requested season_id c ("https://ld2l.gg/" +:+ url) →
  triple (engaged w0 season_id c printed lp op) (call lp (pull url))
    (λ pr w', engaged w0 season_id c printed pr.1 op w'
              ∧ fetch ("https://ld2l.gg/" +:+ url) = Ok pr.2)
    (aborted w0 season_id c).
Proof.
  intros Hreq w (Hb1 & Hd1 & Hb2 & Hd2 & Hcon & new & Hnew & Hall & Hpol).
  destruct (pull_spec url lp w) as (start & w' & Hlog & _ & Htime & Hres).
  pose proof (pull_console url lp w) as Hc.
  assert (Forall (λ tu, requested season_id c tu.2)
            (new ++ [(start, "https://ld2l.gg/" +:+ url)])) as Hall'.
  { apply Forall_app. split; [done|]. by apply Forall_singleton. }
  assert (requests w' = requests w0 ++ new ++ [(start, "https://ld2l.gg/" +:+ url)])
    as Hlog'.
  { by rewrite Hlog, Hnew, Hb1, <- (assoc_L (++)). }
  unfold call, fetch. rewrite Hb1 in Hres.
  destruct (http ("https://ld2l.gg/" +:+ url)) as [r|]; rewrite Hres in Hc |- *;
    cbn in Hc |- *.
  - split; [|done]. repeat (split; [done|]). split; [congruence|].
    eexists. split; [exact Hlog'|]. split; [done|].
    intros Hcalm. destruct Hcalm as [Hhz Hlag]. destruct (Htime Hlag) as [H1 H2].
    apply (polite_ld2l lp); [by apply Hpol|done|done|done|lia].
  - eexists. split; [exact Hlog'|]. split; [done|].
    intros Hcalm. destruct Hcalm as [Hhz Hlag]. destruct (Htime Hlag) as [H1 H2].
    rewrite <- Hd1, <- Hd2.
    apply (polite_ld2l lp (Puller (duration lp) start (base_url lp)));
      [by apply Hpol|done|done|done|lia].
Qed.

Lemma call_pull_opendota w0 season_id c printed lp op url :
  requested season_id c ("https://api.opendota.com/api/" +:+ url) →
  triple (engaged w0 season_id c printed lp op) (call op (pull url))
    (λ pr w', engaged w0 season_id c printed lp pr.1 w')
    (aborted w0 season_id c).
Proof.
  intros Hreq w (Hb1 & Hd1 & Hb2 & Hd2 & Hcon & new & Hnew & Hall & Hpol).
  destruct (pull_spec url op w) as (start & w' & Hlog & _ & Htime & Hres).
  pose proof (pull_console url op w) as Hc.
  assert (Forall (λ tu, requested season_id c tu.2)
            (new ++ [(start, "https://api.opendota.com/api/" +:+ url)])) as Hall'.
  { apply Forall_app. split; [done|]. by apply Forall_singleton. }
  assert (requests w'
          = requests w0 ++ new ++ [(start, "https://api.opendota.com/api/" +:+ url)])
    as Hlog'.
  { by rewrite Hlog, Hnew, Hb2, <- (assoc_L (++)). }
  unfold call. rewrite Hb2 in Hres.
  destruct (http ("https://api.opendota.com/api/" +:+ url)) as [r|];
    rewrite Hres in Hc |- *; cbn in Hc |- *.
  - repeat (split; [done|]). split; [congruence|].
    eexists. split; [exact Hlog'|]. split; [done|].
    intros Hcalm. destruct Hcalm as [Hhz Hlag]. destruct (Htime Hlag) as [H1 H2].
    apply (polite_opendota lp op); [by apply Hpol|done|done|done|lia].
  - eexists. split; [exact Hlog'|]. split; [done|].
    intros Hcalm. destruct Hcalm as [Hhz Hlag]. destruct (Htime Hlag) as [H1 H2].
    rewrite <- Hd1, <- Hd2.
    apply (polite_opendota lp op (Puller (duration op) start (base_url op)));
      [by apply Hpol|done|done|done|lia].
Qed.

Lemma pull_match_data_engaged w0 season_id c printed lp op v :
  requested season_id c
    ("https://api.opendota.com/api/" +:+ ("matches/" +:+ py_str v)) →
  triple (engaged w0 season_id c printed lp op) (pull_match_data op v)
    (λ pr w', engaged w0 season_id c printed lp pr.1 w')
    (aborted w0 season_id c).
Proof.
  intros Hreq. unfold pull_match_data.
  eapply triple_bind; [by apply call_pull_opendota|].
  intros [op' r]. cbn [fst].
  apply triple_liftE_bind; [|intros; by eapply engaged_aborted].
  intros j _. apply triple_liftE_bind; [|intros; by eapply engaged_aborted].
  intros row _. by apply triple_ret.
Qed.

Lemma check_caches_engaged w0 season_id c printed lp op :
  triple (engaged w0 season_id c printed lp op) (check_caches op c)
    (λ st w',
       engaged w0 season_id c
         (printed
          ++ (if decide (size (cached_but_no_data c) ≠ 0%nat)
              then ["Warning: csv file missing data on IDs in cache. Pulling missing match data..."]
              else [])
          ++ (if decide (size (known_data_ids c ∖ cached_od_ids c) ≠ 0%nat)
              then ["Warning: csv file contains data on IDs not present in cache."]
              else []))
         lp st.1 w')
    (aborted w0 season_id c).
Proof.
  unfold check_caches.
  eapply (triple_bind _ _ _
    (λ st w', engaged w0 season_id c
                (printed
                 ++ (if decide (size (cached_but_no_data c) ≠ 0%nat)
                     then ["Warning: csv file missing data on IDs in cache. Pulling missing match data..."]
                     else []))
                lp st.1 w')).
  - destruct (decide (size (cached_but_no_data c) ≠ 0%nat)) as [Hne|He].
    + apply triple_print_bind.
      eapply triple_conseq;
        [apply (triple_foldM backfill_step _
                  (λ st w', engaged w0 season_id c
                    (printed ++ ["Warning: csv file missing data on IDs in cache. Pulling missing match data..."])
                    lp st.1 w') (aborted w0 season_id c))| | |].
      * intros [op' rows] v Hv. unfold backfill_step.
        eapply triple_bind; [apply pull_match_data_engaged|].
        { right; right. exists v. split; [by left|done]. }
        intros [op'' row]. by apply triple_ret.
      * intros w (w1 & Hw1 & ->). by apply engaged_print.
      * done.
      * done.
    + apply triple_ret. intros w Hw. by rewrite app_nil_r.
  - intros st.
    destruct (decide (size (known_data_ids c ∖ cached_od_ids c) ≠ 0%nat)) as [Hne|He].
    + apply triple_print_bind. apply triple_ret.
      intros w (w1 & Hw1 & ->). rewrite (assoc_L (++)). by apply engaged_print.
    + apply triple_ret_bind. apply triple_ret. intros w Hw. by rewrite app_nil_r.
Qed.

Lemma discover_engaged w0 season_id c printed lp op :
  triple (engaged w0 season_id c printed lp op) (discover lp season_id c)
    (λ pr w', engaged w0 season_id c printed pr.1 op w'
              ∧ currently_posted_of season_id = Ok pr.2)
    (aborted w0 season_id c).
Proof.
  unfold discover.
  eapply triple_bind; [apply call_pull_ld2l; by left|].
  intros [lp' r]. cbn [fst snd].
  apply triple_liftE_bind; [|intros ? ? ? [? _]; by eapply engaged_aborted].
  intros posted Hposted.
  destruct (decide (size (cached_ld2l_ids c ∖ posted) = 0%nat)).
  - apply triple_ret_bind. apply triple_ret. intros w [Hw Hf]. split; [done|].
    unfold currently_posted_of. by rewrite Hf.
  - apply triple_liftE_bind; [done|]. intros ? ? ? [? _]. by eapply engaged_aborted.
Qed.

Lemma process_new_engaged w0 season_id c printed lp op rows posted :
  triple (engaged w0 season_id c printed lp op) (process_new lp op c rows posted)
    (λ _ w', ∃ lp' op',
       engaged w0 season_id c
         (printed ++ (if decide (0 < size (posted ∖ cached_ld2l_ids c))%nat
                      then [] else ["No new matches."]))
         lp' op' w')
    (aborted w0 season_id c).
Proof.
  unfold process_new.
  destruct (decide (0 < size (posted ∖ cached_ld2l_ids c))%nat) as [Hpos|Hz].
  - eapply triple_bind;
      [apply (triple_foldM (new_match_step (known_data_ids c)) _
                (λ st w', engaged w0 season_id c printed st.1.1.1 st.1.1.2 w')
                (aborted w0 season_id c) (lp, op, [], rows))|].
    + intros [[[lp1 op1] pairs] rows1] k Hk. unfold new_match_step. cbn [fst snd].
      eapply triple_bind; [apply call_pull_ld2l|].
      { right; left. by exists posted, k. }
      intros [lp2 r]. cbn [fst snd].
      apply triple_liftE_bind; [|intros ? ? ? [? _]; by eapply engaged_aborted].
      intros v _.
      destruct (decide (v ≠ 0 ∧ v ∉ known_data_ids c)) as [Hv|Hv].
      * eapply triple_bind;
          [eapply triple_conseq; [apply (pull_match_data_engaged w0 season_id c printed lp2 op1 v)| | |]|].
        { right; right. exists v. split; [by right|done]. }
        { by intros w [Hw _]. }
        { intros a w Hw. exact Hw. }
        { done. }
        intros [op2 row]. by apply triple_ret.
      * apply triple_ret. by intros w [Hw _].
    + intros [[[lp1 op1] pairs] rows1]. apply triple_ret.
      intros w Hw. exists lp1, op1. by rewrite app_nil_r.
  - apply triple_print_bind. apply triple_ret.
    intros w (w1 & Hw1 & ->). exists lp, op. by apply engaged_print.
Qed.

Lemma triple_assume {A} (φ : Prop) (P : world → Prop) (m : M A) Q E :
  (φ → triple P m Q E) → triple (λ w, P w ∧ φ) m Q E.
Proof. intros H w [Hw Hφ]. by apply H. Qed.

Lemma engaged_start season_id c w :
  engaged w season_id c []
    (RateLimitedPuller_init (15 * hz) "https://ld2l.gg/")
    (RateLimitedPuller_init (1 * hz) "https://api.opendota.com/api/") w.
Proof.
  repeat (split; [done|]). split; [by rewrite app_nil_r|].
  exists []. split; [by rewrite app_nil_r|]. split; [done|].
  intros _. split; [apply spaced_nil|done].
Qed.

Lemma gather_updates_engaged season_id w0 :
  triple (λ w, w = w0) (gather_updates season_id)
    (λ _ w', ∃ c posted lp op,
       loaded (storage w0) = Ok c
       ∧ currently_posted_of season_id = Ok posted
       ∧ engaged w0 season_id c (printed_by_run c posted) lp op w')
    (λ w', ∃ new,
       requests w' = requests w0 ++ new
       ∧ (calm → spaced (15 * hz) (1 * hz) new)
       ∧ ∀ c, loaded (storage w0) = Ok c → Forall (λ tu, requested season_id c tu.2) new).
Proof.
  unfold gather_updates. cbv zeta.
  eapply (triple_bind _ _ _ (λ c w, w = w0 ∧ loaded (storage w0) = Ok c)).
  - intros w ->. rewrite load_caches_run.
    destruct (loaded (storage w0)) as [c|e]; [done|].
    exists []. rewrite app_nil_r. split; [done|].
    split; [intros _; apply spaced_nil|]. by intros c [=].
  - intros c. apply triple_assume. intros Hc.
    eapply (triple_conseq _ (engaged w0 season_id c [] _ _) _ _
              (λ _ w', ∃ posted lp op,
                 currently_posted_of season_id = Ok posted
                 ∧ engaged w0 season_id c (printed_by_run c posted) lp op w')
              _ (aborted w0 season_id c)).
    + eapply triple_bind; [apply check_caches_engaged|].
      intros [op1 rows]. cbn [fst].
      eapply triple_bind; [apply discover_engaged|].
      intros [lp1 posted]. cbn [fst snd].
      apply triple_assume. intros Hposted.
      eapply triple_bind; [apply process_new_engaged|].
      intros [pairs rows']. apply triple_ret.
      intros w (lp' & op' & Hw). exists posted, lp', op'. split; [done|].
      unfold printed_by_run. rewrite (assoc_L (++)). exact Hw.
    + intros w ->. apply engaged_start.
    + intros a w (posted & lp' & op' & Hp & Hw). by exists c, posted, lp', op'.
    + intros w (new & Hnew & Hall & Hs). exists new. split; [done|]. split; [done|].
      intros c' Hc'. rewrite Hc in Hc'. by injection Hc' as <-.
Qed.

Lemma update_data_for_season_engaged season_id csv_filename w :
  let res := update_data_for_season season_id csv_filename w in
  ∃ new,
    requests res.2 = requests w ++ new
    ∧ (calm → spaced (15 * hz) (1 * hz) new)
    ∧ ∀ c, loaded (storage w) = Ok c →
        Forall (λ tu, requested season_id c tu.2) new
        ∧ (res.1 = Ok () →
           ∃ posted, currently_posted_of season_id = Ok posted
                     ∧ console res.2 = console w ++ printed_by_run c posted).
Proof.
  pose proof (gather_updates_engaged season_id w w eq_refl) as Hg.
  unfold update_data_for_season. cbv zeta. unfold mbind, ST_bind.
  destruct (gather_updates season_id w) as [[[[cached pairs] rows]|e] w1]; cbn.
  - destruct Hg as (c & posted & lp & op & Hc & Hp & Hw).
    destruct Hw as (_ & Hd1 & _ & Hd2 & Hcon & new & Hnew & Hall & Hpol).
    exists new. split; [done|]. split.
    { intros Hcalm. destruct (Hpol Hcalm) as [Hs _]. by rewrite Hd1, Hd2 in Hs. }
    intros c' Hc'. rewrite Hc in Hc'. injection Hc' as <-.
    split; [done|]. intros _. by exists posted.
  - destruct Hg as (new & Hnew & Hs & Hall). exists new. split; [done|]. split; [done|].
    intros c Hc. split; [by apply Hall|]. by intros [=].
Qed.

(** X17. A run asks only for what it lacks.  Every request of a run whose
    caches loaded is the listing of the season, the page of a match whose
    informal id is not in the pairing cache, or the Stats record of a match
    whose id is not 0 and has no row in the table: the run never asks the
    Stats Source for match 0, nor for a match it already holds. *)
Theorem run_requests_only_what_is_missing season_id csv_filename w c new t url :
  visits_each_once →
  loaded (storage w) = Ok c →
  requests (update_data_for_season season_id csv_filename w).2 = requests w ++ new →
  (t, url) ∈ new →
  url = "https://ld2l.gg/" +:+ ("seasons/" +:+ py_str season_id +:+ "/matches")
  ∨ (∃ k, (k ∉ cached_ld2l_ids c)
          ∧ url = "https://ld2l.gg/" +:+ ("matches/" +:+ py_str k))
  ∨ (∃ v, v ≠ 0 ∧ (v ∉ known_data_ids c)
          ∧ url = "https://api.opendota.com/api/" +:+ ("matches/" +:+ py_str v)).
Proof.
  intros Hv Hc Hreq Hin.
  destruct (update_data_for_season_engaged season_id csv_filename w)
    as (new' & Hnew & _ & Hall).
  destruct (Hall c Hc) as [Hall' _].
  rewrite Hreq in Hnew. apply app_inv_head in Hnew as <-.
  rewrite Forall_forall in Hall'. specialize (Hall' _ Hin). cbn in Hall'.
  destruct Hall' as [->|[(posted & k & Hk & ->)|(v & Hv' & ->)]].
  - by left.
  - right; left. exists k. split; [|done].
    apply (elem_of_set_iter _ _ Hv) in Hk. by apply elem_of_difference in Hk as [_ Hk].
  - right; right. exists v. split; [|split; [|done]].
    + destruct Hv' as [Hin'|[Hne _]]; [|done].
      apply (elem_of_set_iter _ _ Hv) in Hin'. unfold cached_but_no_data in Hin'.
      apply elem_of_difference in Hin' as [_ Hin'].
      intros ->. apply Hin'. by apply elem_of_singleton.
    + destruct Hv' as [Hin'|[_ Hnk]]; [|done].
      apply (elem_of_set_iter _ _ Hv) in Hin'. unfold cached_but_no_data in Hin'.
      apply elem_of_difference in Hin' as [Hin' _].
      by apply elem_of_difference in Hin' as [_ Hin'].
Qed.

(** X18. When time does not run backwards, any two requests one run sends
    to ld2l.gg start at least 15 seconds apart and any two it sends to
    OpenDota at least 1 second apart, whatever the order in which the run
    alternates between the two hosts and whether or not it completes. *)
Theorem run_requests_spaced season_id csv_filename w new i j t1 u1 t2 u2 :
  0 ≤ hz → (∀ n, 0 ≤ lag n) →
  requests (update_data_for_season season_id csv_filename w).2 = requests w ++ new →
  (i < j)%nat → new !! i = Some (t1, u1) → new !! j = Some (t2, u2) →
  (to_ld2l u1 = true → to_ld2l u2 = true → 15 * hz ≤ t2 - t1)
  ∧ (to_opendota u1 = true → to_opendota u2 = true → 1 * hz ≤ t2 - t1).
Proof.
  intros Hhz Hlag Hreq.
  destruct (update_data_for_season_engaged season_id csv_filename w)
    as (new' & Hnew & Hs & _).
  rewrite Hreq in Hnew. apply app_inv_head in Hnew as <-.
  by apply Hs.
Qed.

(** X19. The lines a completed run writes with [print] are decided by the
    caches it loaded and the listing: the warning of line 128 when an id of
    the cache other than 0 has no row, the warning of line 134 when a row
    has no pairing, and [No new matches.] exactly when the listing shows no
    id the cache lacks.  The run calls [print] for nothing else.  (The
    progress bars that [tqdm] draws on standard error while the loops of
    lines 129 and 147 run are not lines of [print] and are not part of
    [console].) *)
Theorem completed_run_prints season_id csv_filename w c posted :
  loaded (storage w) = Ok c →
  currently_posted_of season_id = Ok posted →
  (update_data_for_season season_id csv_filename w).1 = Ok () →
  console (update_data_for_season season_id csv_filename w).2
  = console w ++ printed_by_run c posted.
Proof.
  intros Hc Hp Hok.
  destruct (update_data_for_season_engaged season_id csv_filename w)
    as (new' & _ & _ & Hall).
  destruct (Hall c Hc) as [_ Hcon]. destruct (Hcon Hok) as (posted' & Hp' & ->).
  rewrite Hp in Hp'. by injection Hp' as <-.
Qed.

Lemma py_str_head z : ∃ c s, py_str z = String c s ∧ c ≠ "("%char.
Proof.
  clear. unfold py_str. destruct (Z.to_int z) as [d|d]; [|by eexists _, _].
  destruct d; by eexists _, _.
Qed.

Lemma tuple_str_head r : ∃ c s, tuple_str r = String "(" (String c s).
Proof.
  clear. destruct r as [|z [|z' r]]; [by eexists _, _| |];
    destruct (py_str_head z) as (c & s & Hz & _); cbn; rewrite Hz; by eexists _, _.
Qed.

Lemma concat_py_str_head (r : list Z) rest :
  String.concat "," (py_str <$> r) ≠ String "(" rest.
Proof.
  clear. destruct r as [|z r]; [done|].
  destruct (py_str_head z) as (c & s & Hz & Hc). cbn [fmap list_fmap String.concat].
  rewrite Hz. destruct (py_str <$> r); cbn; intros [= ? _]; done.
Qed.

(** X20. [save_csv] joins the characters of [str(r)], not the values of the
    row: the text it writes is the header line followed by one line per
    row, and each of these lines begins with an opening parenthesis and a
    comma, so that it is never the comma-separated line of the values of
    its row. *)
Theorem save_csv_writes_repr_characters rows out_file files :
  ∃ lines,
    save_csv rows out_file files !! out_file
    = Some (String.concat newline
              (String.concat "," header :: lines))
    ∧ Forall2 (λ r line, (∃ rest, line = "(," +:+ rest)
                         ∧ line ≠ String.concat "," (py_str <$> r)) rows lines.
Proof.
  clear. unfold save_csv. eexists. split; [by rewrite lookup_insert_eq|].
  apply Forall2_fmap_r, Forall_Forall2_diag, Forall_forall. intros r _.
  unfold compose. cbn beta. destruct (tuple_str_head r) as (c & s & ->). cbn [chars String.concat].
  split; [by eexists|]. cbn. intros H. by eapply concat_py_str_head.
Qed.

End program.

(** * The properties on the sample environments *)

Lemma elements_visits_each_once : visits_each_once elements.
Proof. intros s. reflexivity. Qed.

Lemma py_str_eqb_literal z c : String.eqb (py_str z) (py_str c) = true → z = c.
Proof. intros H%String.eqb_eq. by apply py_str_inj. Qed.

Lemma sample_http_faithful : stats_source_faithful sample_http.
Proof.
  intros od_id j.
  change (sample_http ("https://api.opendota.com/api/" +:+ ("matches/" +:+ py_str od_id)))
    with (if String.eqb (py_str od_id) (py_str 55555)
          then Some (JsonBody (sample_match 55555)) else None).
  destruct (String.eqb (py_str od_id) (py_str 55555)) eqn:Heq; [|done].
  apply py_str_eqb_literal in Heq as ->. by intros [= <-].
Qed.

Lemma sample_http_injective : mapper_injective sample_http.
Proof.
  assert (∀ k v, od_id_of sample_http k = Ok v → v ≠ 0 → k = 101) as H.
  { intros k v. unfold od_id_of, fetch.
    change (sample_http ("https://ld2l.gg/" +:+ ("matches/" +:+ py_str k)))
      with (if String.eqb (py_str k) (py_str 101)
            then Some (MatchPage (Some "https://www.opendota.com/matches/55555"))
            else if String.eqb (py_str k) (py_str 103)
                 then Some (MatchPage (Some "https://www.opendota.com/matches/0"))
                 else None).
    destruct (String.eqb (py_str k) (py_str 101)) eqn:H1.
    - intros _ _. by apply py_str_eqb_literal.
    - destruct (String.eqb (py_str k) (py_str 103)) eqn:H3; [|done].
      intros [= <-]. done. }
  intros k1 k2 v H1 H2 Hv. by rewrite (H k1 v), (H k2 v).
Qed.

Lemma unfaithful_http_injective : mapper_injective unfaithful_http.
Proof.
  assert (∀ k v, od_id_of unfaithful_http k = Ok v → k = 101) as H.
  { intros k v. unfold od_id_of, fetch.
    change (unfaithful_http ("https://ld2l.gg/" +:+ ("matches/" +:+ py_str k)))
      with (if String.eqb (py_str k) (py_str 101)
            then Some (MatchPage (Some "https://www.opendota.com/matches/55555"))
            else None).
    destruct (String.eqb (py_str k) (py_str 101)) eqn:H1; [|done].
    intros _. by apply py_str_eqb_literal. }
  intros k1 k2 v H1 H2 _. by rewrite (H k1 v), (H k2 v).
Qed.


Lemma sample_players_well_formed :
  Forall well_formed_player
    [sample_player 0 1 2 3 400 500; sample_player 1 2 3 4 410 510;
     sample_player 2 3 4 5 420 520; sample_player 3 4 5 6 430 530;
     sample_player 4 5 6 7 440 540;
     sample_player 128 10 1 1 300 350; sample_player 129 20 1 1 310 360;
     sample_player 130 30 1 1 320 370; sample_player 131 40 1 1 330 380;
     sample_player 132 50 1 1 340 390].
Proof.
  repeat (apply List.Forall_cons; [|]); try apply List.Forall_nil;
    (split; [eexists; split; [reflexivity|lia]
            |repeat (apply List.Forall_cons; [eexists; reflexivity|]);
             apply List.Forall_nil]).
Defined.

(** Five players in slots 0..4 and five in slots 128..132: the totals of the
    first group fill the radiant positions, those of the second the dire
    positions. *)
Lemma desired_fields_partitions_by_slot_witness :
  desired_fields (sample_match 55555)
  = Ok [PInt 55555; PInt 7; PInt 15; PInt 20; PInt 25; PInt 2100; PInt 2600;
        PInt 8; PInt 150; PInt 5; PInt 5; PInt 1600; PInt 1850].
Proof.
  exact (desired_fields_partitions_by_slot (sample_match 55555)
           (PInt 55555) (PInt 7) (PInt 8) _
           eq_refl eq_refl eq_refl eq_refl sample_players_well_formed).
Defined.

(** Two calls in a row on the ld2l puller: the second request leaves 19
    ticks after the first, the interval being 15. *)
Lemma pull_requests_spaced_witness :
  let p := RateLimitedPuller_init 15 "https://ld2l.gg/" in
  pulls sample_http unit_lag p [1700000002; 1700000021]
  ∧ duration p ≤ 1700000021 - 1700000002.
Proof.
  intros p.
  assert (pulls sample_http unit_lag p [1700000002; 1700000021]) as Hp.
  { eapply (pulls_next sample_http unit_lag p fresh_world "matches/101");
      [vm_compute; reflexivity | vm_compute; reflexivity |].
    eapply (pulls_next sample_http unit_lag _
              (pull sample_http unit_lag "matches/101" (p, fresh_world)).2.2
              "matches/103");
      [vm_compute; reflexivity | vm_compute; reflexivity | apply pulls_done]. }
  split; [exact Hp|].
  apply (pull_requests_spaced sample_http unit_lag p [1700000002; 1700000021] 0
           1700000002 1700000021); [intros n; unfold unit_lag; lia | exact Hp | | ];
    reflexivity.
Defined.

(** C6, as stated, fails: when the request raises, [prev_pull] keeps the
    value it had (here 0) although the clock reads 1700000003. *)
Lemma failed_pull_leaves_prev_pull :
  let res := pull down_http unit_lag "matches/101"
               (RateLimitedPuller_init 15 "https://ld2l.gg/", fresh_world) in
  res.1 = Raise ConnectionError
  ∧ prev_pull res.2.1 = 0
  ∧ clock res.2.2 = 1700000003
  ∧ prev_pull res.2.1 ≠ clock res.2.2.
Proof. vm_compute. repeat split; try reflexivity. discriminate. Qed.

(** The listing cannot be fetched: the run raises and the disk is untouched. *)
Lemma fetch_failure_leaves_disk_witness :
  let res := update_data_for_season down_http unit_lag 1 elements no_container_str
               33 None synced_world in
  res.1 = Raise ConnectionError ∧ storage res.2 = synced_disk.
Proof.
  apply (fetch_failure_leaves_disk down_http unit_lag 1 elements no_container_str
           33 None synced_world
           [(1700000002, "https://ld2l.gg/seasons/33/matches")]
           (1700000002, "https://ld2l.gg/seasons/33/matches"));
    [vm_compute; reflexivity | apply list_elem_of_here | reflexivity].
Defined.

(** The cache knows informal id 999, the listing shows 101 and 103 only:
    the run stops on the assertion and writes nothing. *)
Lemma append_only_check_witness :
  let res := update_data_for_season sample_http unit_lag 1 elements no_container_str
               33 None stale_world in
  res.1 = Raise AssertionError ∧ storage res.2 = storage stale_world.
Proof.
  refine (proj1 (append_only_check sample_http unit_lag 1 elements no_container_str
                   33 None stale_world
                   (Caches [("999", 0)] (list_to_set [999]) [] (list_to_set []))
                   [] (list_to_set [101; 103]) _ _ _) _).
  - vm_compute. reflexivity.
  - vm_compute. reflexivity.
  - vm_compute. reflexivity.
  - exists 999. split; apply (bool_decide_unpack _); vm_compute; exact I.
Defined.

(** C4, as stated, fails: with nothing to backfill and nothing new on the
    listing the run still opens both files for writing. *)
Lemma no_new_data_still_writes :
  let res := update_data_for_season settled_http unit_lag 1 elements no_container_str
               33 None synced_world in
  ∃ c posted,
    loaded (storage synced_world) = Ok c
    ∧ cached_but_no_data c = ∅
    ∧ currently_posted_of settled_http 33 = Ok posted
    ∧ posted ∖ cached_ld2l_ids c = ∅
    ∧ res.1 = Ok ()
    ∧ journal (storage synced_world) = []
    ∧ journal (storage res.2)
      = ["ld2l_match_id_mapping_s33.json"; "selected_data33.csv"].
Proof.
  eexists _, _. split; [reflexivity|]. split; [vm_compute; reflexivity|].
  split; [reflexivity|]. vm_compute. repeat split; reflexivity.
Qed.

(** On a disk that is up to date the run rewrites both files with what it
    loaded. *)
Lemma no_new_data_rewrites_caches_witness :
  let res := update_data_for_season settled_http unit_lag 1 elements no_container_str
               33 None synced_world in
  res.1 = Ok ()
  ∧ pairing_cache (storage res.2) = Some [("101", 55555)]
  ∧ table (storage res.2) = table synced_disk
  ∧ journal (storage res.2) = ["ld2l_match_id_mapping_s33.json"; "selected_data33.csv"].
Proof.
  apply (no_new_data_rewrites_caches settled_http unit_lag 1 elements no_container_str
           33 None synced_world
           (Caches [("101", 55555)] (list_to_set [101])
              [PStr <$> ["55555"; "7"; "15"; "20"; "25"; "2100"; "2600";
                         "8"; "150"; "5"; "5"; "1600"; "1850"]]
              (list_to_set [55555]))
           (list_to_set [101]));
    vm_compute; reflexivity.
Defined.

(** On the disk left by earlier runs, a run against the sample season keeps
    the pairing of 101 and adds that of 103. *)
Lemma persist_keeps_loaded_pairings_witness :
  let res := update_data_for_season sample_http unit_lag 1 elements no_container_str
               33 None synced_world in
  ∃ added,
    pairing_cache (storage res.2) = Some (loaded_pairings synced_disk ++ added)
    ∧ ∀ s v, dict_get (loaded_pairings synced_disk) s = Some v →
             dict_get (json_load (loaded_pairings synced_disk ++ added)) s = Some v.
Proof.
  apply (persist_keeps_loaded_pairings sample_http unit_lag 1 elements no_container_str
           33 None synced_world);
    [exact elements_visits_each_once | vm_compute; reflexivity].
Defined.

Lemma pairing_cache_round_trip_witness :
  let res := update_data_for_season sample_http unit_lag 1 elements no_container_str
               33 None synced_world in
  ∃ c posted written,
    loaded (storage synced_world) = Ok c
    ∧ currently_posted_of sample_http 33 = Ok posted
    ∧ pairing_cache (storage res.2) = Some written
    ∧ NoDup written.*1
    ∧ int_keys (json_load written) = Ok (cached_ld2l_ids c ∪ (posted ∖ cached_ld2l_ids c))
    ∧ (∀ s v, dict_get (cached_id_pairings c) s = Some v →
              dict_get (json_load written) s = Some v)
    ∧ (∀ k, k ∈ posted ∖ cached_ld2l_ids c →
            ∃ v, od_id_of sample_http k = Ok v
                 ∧ dict_get (json_load written) (py_str k) = Some v).
Proof.
  apply (pairing_cache_round_trip sample_http unit_lag 1 elements no_container_str
           33 None synced_world);
    [exact elements_visits_each_once | vm_compute; reflexivity].
Defined.

Lemma grown_http_faithful : stats_source_faithful grown_http.
Proof.
  intros od_id j.
  change (grown_http ("https://api.opendota.com/api/" +:+ ("matches/" +:+ py_str od_id)))
    with (if String.eqb (py_str od_id) (py_str 77777)
          then Some (JsonBody (sample_match 77777)) else None).
  destruct (String.eqb (py_str od_id) (py_str 77777)) eqn:Heq; [|done].
  apply py_str_eqb_literal in Heq as ->. by intros [= <-].
Qed.

Lemma grown_http_injective : mapper_injective grown_http.
Proof.
  assert (∀ k v, od_id_of grown_http k = Ok v → v ≠ 0 →
                 k = if decide (v = 55555) then 101
                     else if decide (v = 66666) then 102 else 104) as H.
  { intros k v. unfold od_id_of, fetch.
    change (grown_http ("https://ld2l.gg/" +:+ ("matches/" +:+ py_str k)))
      with (if String.eqb (py_str k) (py_str 101)
            then Some (MatchPage (Some "https://www.opendota.com/matches/55555"))
            else if String.eqb (py_str k) (py_str 102)
            then Some (MatchPage (Some "https://www.opendota.com/matches/66666"))
            else if String.eqb (py_str k) (py_str 103)
            then Some (MatchPage (Some "https://www.opendota.com/matches/0"))
            else if String.eqb (py_str k) (py_str 104)
            then Some (MatchPage (Some "https://www.opendota.com/matches/77777"))
            else None).
    destruct (String.eqb (py_str k) (py_str 101)) eqn:H1.
    { intros [= <-] _. by apply py_str_eqb_literal. }
    destruct (String.eqb (py_str k) (py_str 102)) eqn:H2.
    { intros [= <-] _. by apply py_str_eqb_literal. }
    destruct (String.eqb (py_str k) (py_str 103)) eqn:H3.
    { by intros [= <-]. }
    destruct (String.eqb (py_str k) (py_str 104)) eqn:H4; [|done].
    intros [= <-] _. by apply py_str_eqb_literal. }
  intros k1 k2 v H1 H2 Hv. by rewrite (H k1 v), (H k2 v).
Qed.

(** The table holds the rows of matches 55555 and 66666 and the cache pairs
    101 and 102 with them.  The listing now also shows 103, forfeited, and
    104, played as match 77777: the run adds the row of 77777 and none for
    the sentinel. *)
Lemma table_ids_stay_distinct_witness :
  let res := update_data_for_season grown_http unit_lag 1 elements no_container_str
               33 None two_match_world in
  ∃ added,
    table_ids (table (storage res.2)) = Ok ([55555; 66666] ++ added)
    ∧ NoDup ([55555; 66666] ++ added)
    ∧ 0 ∉ [55555; 66666] ++ added.
Proof.
  apply (table_ids_stay_distinct grown_http unit_lag 1 elements no_container_str
           33 None two_match_world [55555; 66666]).
  - exact elements_visits_each_once.
  - exact grown_http_faithful.
  - exact grown_http_injective.
  - vm_compute. reflexivity.
  - apply (bool_decide_unpack _). vm_compute. exact I.
  - apply (bool_decide_unpack _). vm_compute. exact I.
  - intros v Hv _. exact Hv.
  - vm_compute. reflexivity.
Defined.

(** C2, as stated, fails: the mapper is injective and the run starts from
    an empty table and an empty cache, yet the Stats Source answers the
    request for match 55555 with a record whose [match_id] is 0 and the
    written table holds a row for the sentinel. *)
Lemma unfaithful_source_writes_sentinel_row :
  let res := update_data_for_season unfaithful_http unit_lag 1 elements no_container_str
               33 None fresh_world in
  mapper_injective unfaithful_http
  ∧ table_ids (table (storage fresh_world)) = Ok []
  ∧ loaded_pairings (storage fresh_world) = []
  ∧ res.1 = Ok ()
  ∧ table_ids (table (storage res.2)) = Ok [0].
Proof.
  split; [exact unfaithful_http_injective|]. vm_compute. repeat split; reflexivity.
Qed.

Lemma second_run_changes_nothing_witness :
  let w1 := (update_data_for_season sample_http unit_lag 1 elements no_container_str
               33 None fresh_world).2 in
  let w2 := (update_data_for_season sample_http unit_lag 1 elements no_container_str
               33 None w1).2 in
  pairing_cache (storage w2) = pairing_cache (storage w1)
  ∧ table (storage w2) = table (storage w1).
Proof.
  apply (second_run_changes_nothing sample_http unit_lag 1 elements no_container_str
           33 None fresh_world);
    [exact elements_visits_each_once | exact sample_http_faithful].
Defined.

(** C3, as stated, fails: against the same answers, the second run
    backfills match 55555 again and appends a second copy of the row. *)
Lemma unfaithful_source_second_run_appends :
  let w1 := (update_data_for_season unfaithful_http unit_lag 1 elements
               no_container_str 33 None fresh_world).2 in
  let w2 := (update_data_for_season unfaithful_http unit_lag 1 elements
               no_container_str 33 None w1).2 in
  length <$> table (storage w1) = Some 2%nat
  ∧ length <$> table (storage w2) = Some 3%nat
  ∧ table (storage w2) ≠ table (storage w1).
Proof. vm_compute. repeat split; try reflexivity. discriminate. Qed.


Lemma wrapped_players_indexable : Forall indexable_player wrapped_players.
Proof.
  repeat (apply List.Forall_cons; [|]); try apply List.Forall_nil;
    (split; [eexists; split; [reflexivity|lia]
            |repeat (apply List.Forall_cons; [eexists; reflexivity|]);
             apply List.Forall_nil]).
Defined.

(** A link to another host, with 33 characters before the id. *)
Lemma ld2l_to_opendota_reads_tail_witness :
  ld2l_to_opendota (MatchPage (Some ("http://mirror.example/dota/match/" +:+ py_str 55555)))
  = Ok 55555.
Proof.
  apply (ld2l_to_opendota_reads_tail "http://mirror.example/dota/match/" 55555).
  reflexivity.
Defined.

(** The link ends where the id should start. *)
Lemma ld2l_to_opendota_short_link_witness :
  ld2l_to_opendota (MatchPage (Some "https://www.opendota.com/matches/"))
  = Raise ValueError.
Proof.
  apply (ld2l_to_opendota_short_link "https://www.opendota.com/matches/").
  cbn. lia.
Defined.

(** On the listing of season 33, match 101 is in the set returned. *)
Lemma scrape_completed_members_witness :
  101 ∈ (list_to_set [101; 103] : gset Z)
  ↔ ∃ c href,
      c ∈ [Td (Some "/matches/101") true; Td (Some "/matches/102") false;
           Td (Some "/matches/103") true]
      ∧ td_span c = true ∧ td_a_href c = Some href
      ∧ py_int (py_drop 9 href) = Ok 101.
Proof.
  apply (scrape_completed_members
           [Td (Some "/matches/101") true; Td (Some "/matches/102") false;
            Td (Some "/matches/103") true]
           (list_to_set [101; 103]) 101).
  vm_compute. reflexivity.
Defined.

(** The set returned for the listing of season 33 was read from the cell
    of match 103 too. *)
Lemma scrape_completed_reads_every_crown_witness :
  ∃ href k,
    td_a_href (Td (Some "/matches/103") true) = Some href
    ∧ py_int (py_drop 9 href) = Ok k
    ∧ k ∈ (list_to_set [101; 103] : gset Z).
Proof.
  apply (scrape_completed_reads_every_crown
           [Td (Some "/matches/101") true; Td (Some "/matches/102") false;
            Td (Some "/matches/103") true]
           (list_to_set [101; 103]) (Td (Some "/matches/103") true)).
  - vm_compute. reflexivity.
  - apply list_elem_of_further, list_elem_of_further, list_elem_of_here.
  - reflexivity.
Defined.

(** Slot -200 is counted with the radiant team, slots -1 and 130 with the
    dire team. *)
Lemma desired_fields_wraps_negative_slots_witness :
  desired_fields (match_record (PInt 1) (PInt 7) (PInt 8) wrapped_players)
  = Ok [PInt 1; PInt 7; PInt 10; PInt 20; PInt 30; PInt 40; PInt 50;
        PInt 8; PInt 101; PInt 202; PInt 303; PInt 404; PInt 505].
Proof.
  exact (desired_fields_wraps_negative_slots (PInt 1) (PInt 7) (PInt 8) wrapped_players
           wrapped_players_indexable).
Defined.

Lemma desired_fields_player_order_witness :
  desired_fields (match_record (PInt 1) (PInt 7) (PInt 8) wrapped_players)
  = desired_fields (match_record (PInt 1) (PInt 7) (PInt 8) (reverse wrapped_players)).
Proof.
  apply (desired_fields_player_order (PInt 1) (PInt 7) (PInt 8) wrapped_players
           (reverse wrapped_players));
    [exact wrapped_players_indexable | symmetry; apply reverse_Permutation].
Defined.

Lemma desired_fields_row_width_witness :
  length [PInt 55555; PInt 7; PInt 15; PInt 20; PInt 25; PInt 2100; PInt 2600;
          PInt 8; PInt 150; PInt 5; PInt 5; PInt 1600; PInt 1850]
  = length header.
Proof.
  apply (desired_fields_row_width (sample_match 55555)). vm_compute. reflexivity.
Defined.

(** A player in slot 256 after three good ones. *)
Lemma desired_fields_slot_out_of_range_witness :
  desired_fields
    (match_record (PInt 1) (PInt 7) (PInt 8)
       (wrapped_players ++ sample_player 256 1 1 1 1 1 :: [sample_player 0 1 1 1 1 1]))
  = Raise IndexError.
Proof.
  apply (desired_fields_slot_out_of_range (PInt 1) (PInt 7) (PInt 8) wrapped_players
           (sample_player 256 1 1 1 1 1) [sample_player 0 1 1 1 1 1] 256);
    [exact wrapped_players_indexable | reflexivity | right; lia].
Defined.

(** A player without [assists] after three good ones. *)
Lemma desired_fields_missing_field_witness :
  desired_fields
    (match_record (PInt 1) (PInt 7) (PInt 8)
       (wrapped_players ++ broken_player :: [sample_player 0 1 1 1 1 1]))
  = Raise KeyError.
Proof.
  apply (desired_fields_missing_field (PInt 1) (PInt 7) (PInt 8) wrapped_players
           broken_player [sample_player 0 1 1 1 1 1]);
    [exact wrapped_players_indexable|].
  right. split; [exists 0; split; [reflexivity|lia]|]. split.
  - apply List.Forall_cons; [left; eexists; reflexivity|].
    apply List.Forall_cons; [left; eexists; reflexivity|].
    repeat (apply List.Forall_cons; [right; reflexivity|]). apply List.Forall_nil.
  - apply List.Exists_cons_tl, List.Exists_cons_tl, List.Exists_cons_hd. reflexivity.
Defined.

Lemma gold_and_xp_columns_swapped_witness :
  ∃ row,
    desired_fields (match_record (PInt 1) (PInt 7) (PInt 8) wrapped_players) = Ok row
    ∧ header !! 5%nat = Some "r_xpm"
    ∧ row !! 5%nat = Some (PInt (team_stat 0 "gold_per_min" wrapped_players))
    ∧ header !! 6%nat = Some "r_gpm"
    ∧ row !! 6%nat = Some (PInt (team_stat 0 "xp_per_min" wrapped_players))
    ∧ header !! 11%nat = Some "d_xpm"
    ∧ row !! 11%nat = Some (PInt (team_stat 1 "gold_per_min" wrapped_players))
    ∧ header !! 12%nat = Some "d_gpm"
    ∧ row !! 12%nat = Some (PInt (team_stat 1 "xp_per_min" wrapped_players)).
Proof.
  exact (gold_and_xp_columns_swapped (PInt 1) (PInt 7) (PInt 8) wrapped_players
           wrapped_players_indexable).
Defined.

(** The previous request ended 10 ticks ago and the interval is 15: the
    request leaves 5 ticks after the call. *)
Lemma pull_waits_for_the_remainder_witness :
  requests (pull sample_http no_lag "matches/101"
              (Puller 15 1699999990 "https://ld2l.gg/", fresh_world)).2.2
  = [(1700000005, "https://ld2l.gg/matches/101")].
Proof.
  exact (pull_waits_for_the_remainder sample_http no_lag "matches/101"
           (Puller 15 1699999990 "https://ld2l.gg/") fresh_world (λ n, eq_refl)).
Defined.

Lemma load_failure_stops_the_run_witness :
  update_data_for_season sample_http unit_lag 1 elements no_container_str
    33 None garbled_world
  = (Raise ValueError, garbled_world).
Proof.
  apply (load_failure_stops_the_run sample_http unit_lag 1 elements no_container_str
           33 None garbled_world ValueError).
  vm_compute. reflexivity.
Defined.

Lemma persist_appends_rows_witness :
  let res := update_data_for_season sample_http unit_lag 1 elements no_container_str
               33 None synced_world in
  ∃ added,
    table (storage res.2)
    = Some (header :: drop 1 (default [] (table (storage synced_world))) ++ added).
Proof.
  apply (persist_appends_rows sample_http unit_lag 1 elements no_container_str
           33 None synced_world);
    [exact elements_visits_each_once | vm_compute; reflexivity].
Defined.

(** Match 101 is paired with 55555 but has no row, match 103 is new and
    forfeited: the table written holds the row of 55555 alone. *)
Lemma written_table_ids_witness :
  let res := update_data_for_season sample_http unit_lag 1 elements no_container_str
               33 None backlog_world in
  ∃ posted ods,
    currently_posted_of sample_http 33 = Ok posted
    ∧ mapE (od_id_of sample_http) (elements (posted ∖ list_to_set [101])) = Ok ods
    ∧ table_ids (table (storage res.2)) = Ok [55555].
Proof.
  intros res.
  destruct (written_table_ids sample_http unit_lag 1 elements no_container_str
              33 None backlog_world
              (Caches [("101", 55555)] (list_to_set [101]) [] (list_to_set [])) [])
    as (posted & ods & Hposted & Hods & Hids);
    [exact elements_visits_each_once | exact sample_http_faithful
    | vm_compute; reflexivity | vm_compute; reflexivity | vm_compute; reflexivity |].
  exists posted, ods. split; [exact Hposted|]. split; [exact Hods|].
  fold res in Hids. rewrite Hids.
  injection Hposted as <-. vm_compute in Hods. injection Hods as <-.
  vm_compute. reflexivity.
Defined.


(** The request for match 55555 in a first run on the sample season. *)
Lemma run_requests_only_what_is_missing_witness :
  let c := Caches [] (list_to_set []) [] (list_to_set []) in
  let url := "https://api.opendota.com/api/matches/55555" in
  url = "https://ld2l.gg/" +:+ ("seasons/" +:+ py_str 33 +:+ "/matches")
  ∨ (∃ k, (k ∉ cached_ld2l_ids c)
          ∧ url = "https://ld2l.gg/" +:+ ("matches/" +:+ py_str k))
  ∨ (∃ v, v ≠ 0 ∧ (v ∉ known_data_ids c)
          ∧ url = "https://api.opendota.com/api/" +:+ ("matches/" +:+ py_str v)).
Proof.
  apply (run_requests_only_what_is_missing sample_http unit_lag 1 elements
           no_container_str 33 None fresh_world
           (Caches [] (list_to_set []) [] (list_to_set []))
           [(1700000002, "https://ld2l.gg/seasons/33/matches");
            (1700000021, "https://ld2l.gg/matches/103");
            (1700000040, "https://ld2l.gg/matches/101");
            (1700000044, "https://api.opendota.com/api/matches/55555")]
           1700000044).
  - exact elements_visits_each_once.
  - vm_compute. reflexivity.
  - vm_compute. reflexivity.
  - apply (bool_decide_unpack _). vm_compute. exact I.
Defined.

(** The listing and the first match page of a first run on the sample
    season leave 19 ticks apart. *)
Lemma run_requests_spaced_witness :
  (to_ld2l "https://ld2l.gg/seasons/33/matches" = true →
   to_ld2l "https://ld2l.gg/matches/103" = true →
   15 * 1 ≤ 1700000021 - 1700000002)
  ∧ (to_opendota "https://ld2l.gg/seasons/33/matches" = true →
     to_opendota "https://ld2l.gg/matches/103" = true →
     1 * 1 ≤ 1700000021 - 1700000002).
Proof.
  apply (run_requests_spaced sample_http unit_lag 1 elements no_container_str
           33 None fresh_world
           [(1700000002, "https://ld2l.gg/seasons/33/matches");
            (1700000021, "https://ld2l.gg/matches/103");
            (1700000040, "https://ld2l.gg/matches/101");
            (1700000044, "https://api.opendota.com/api/matches/55555")]
           0%nat 1%nat).
  - lia.
  - intros n. unfold unit_lag. lia.
  - vm_compute. reflexivity.
  - lia.
  - reflexivity.
  - reflexivity.
Defined.

(** Match 101 is paired but has no row: the run prints the first warning
    and, match 103 being new, nothing else. *)
Lemma completed_run_prints_witness :
  console (update_data_for_season sample_http unit_lag 1 elements no_container_str
             33 None backlog_world).2
  = console backlog_world
    ++ printed_by_run (Caches [("101", 55555)] (list_to_set [101]) [] (list_to_set []))
                      (list_to_set [101; 103]).
Proof.
  apply (completed_run_prints sample_http unit_lag 1 elements no_container_str
           33 None backlog_world); vm_compute; reflexivity.
Defined.
